(** * zapcore/write_syncer.go: WriteSyncer and its wrappers

    A shallow embedding of [src/zapcore/write_syncer.go] and of the parts of
    the imported packages it calls ([bufio.Writer], [multierr.Append],
    [time.NewTicker], [sync.Mutex], channels), followed by the properties of
    the sink adapter, the exclusive-access wrapper, the buffering wrapper and
    the fan-out wrapper.

    Go values are modelled as follows.
    - [int] and [time.Duration] are [Z]; the file performs no arithmetic on
      them that could wrap around.
    - [[]byte] is [list byte]; [len] is the list length as a [Z].
    - [error] is the inductive [error]: [nil], an ordinary error, or a
      [*multiError].
    - Interface values are terms of the inductives [WriteSyncer] and [Writer]:
      the constructor is the dynamic type, a pointer is an address together
      with the fields that are never reassigned, the mutable fields live in
      the heap of the [World].
    - A method call is a computation in the monad [M]: it threads the [World]
      and ends by returning, by panicking, by blocking on a mutex already
      held, or by exhausting the iteration budget of a loop. *)

From Stdlib Require Import ZArith Lia.
From Stdlib Require Import Strings.String Strings.Byte.
From stdpp Require Import gmap list strings.

Local Open Scope Z_scope.

(** ** Byte slices *)

Definition bytes := list byte.

(** [len(p)] *)
Definition len (p : bytes) : Z := Z.of_nat (length p).

(** [p[i:j]]; [None] stands for the run-time panic "slice bounds out of
    range".  The capacity of a slice is taken to be its length. *)
Definition slice (p : bytes) (i j : Z) : option bytes :=
  if (0 <=? i) && (i <=? j) && (j <=? len p)
  then Some (take (Z.to_nat (j - i)) (drop (Z.to_nat i) p))
  else None.

(** [copy(dst[at:], src)] on the array [dst]: the number of bytes copied is
    [min(len(dst) - at, len(src))].  Only called with [0 <= at <= len(dst)]. *)
Definition copy_at (dst : bytes) (at_ : Z) (src : bytes) : bytes * Z :=
  let k := Z.min (len dst - at_) (len src) in
  (take (Z.to_nat at_) dst ++ take (Z.to_nat k) src
     ++ drop (Z.to_nat (at_ + k)) dst, k).

(** ** Errors *)

(** An [error] interface value: [nil], an ordinary error (identified by its
    message), or a [*multiError] holding the ordinary errors it combines. *)
Inductive error : Type :=
| nil_error
| errorString (s : string)
| multiError (errors : list string).

Definition is_nil (e : error) : bool :=
  match e with nil_error => true | _ => false end.

(** [io.ErrShortWrite] *)
Definition ErrShortWrite : error := errorString "short write".

Module multierr.

(** Modelled from the spec: the imported package [go.uber.org/multierr] is
    not part of the source tree.  [Errors] lists the underlying errors of a
    value; [Append] is "a single combined error value (one that can
    represent zero, one, or many underlying errors without losing any)":
    [nil] is its unit and two non-nil errors are flattened into one
    [*multiError]. *)
Definition Errors (e : error) : list string :=
  match e with
  | nil_error => []
  | errorString s => [s]
  | multiError l => l
  end.

Definition Append (left right : error) : error :=
  match left, right with
  | nil_error, _ => right
  | _, nil_error => left
  | _, _ => multiError (Errors left ++ Errors right)
  end.

End multierr.

(** ** Interface values *)

Definition addr := nat.

(** [WriteSyncer] interface values, by dynamic type.
    - [foreignSyncer id]: a value of a type declared elsewhere whose method
      set has [Write] and [Sync] (such as [*os.File]);
    - [writerWrapper w]: the struct [writerWrapper{w}];
    - [lockedWriteSyncer a ws]: the pointer [a] to a [lockedWriteSyncer]
      whose field [ws] was set at allocation;
    - [bufferWriterSyncer a wr]: the pointer [a] to a [bufferWriterSyncer]
      whose [bufferWriter] writes to [wr];
    - [multiWriteSyncer ws]: the slice [ws].
    [Writer] is an [io.Writer] interface value: either its dynamic type has
    no [Sync] method ([foreignWriter]), or it satisfies [WriteSyncer]. *)
#[local] Set Warnings "-register-all".

Inductive WriteSyncer : Type :=
| foreignSyncer (id : nat)
| writerWrapper (w : Writer)
| lockedWriteSyncer (a : addr) (ws : WriteSyncer)
| bufferWriterSyncer (a : addr) (wr : WriteSyncer)
| multiWriteSyncer (ws : list WriteSyncer)
with Writer : Type :=
| foreignWriter (id : nat)
| ofWriteSyncer (ws : WriteSyncer).

(** The type assertion of [ws] to a pointer to [lockedWriteSyncer]. *)
Definition is_lockedWriteSyncer (ws : WriteSyncer) : bool :=
  match ws with lockedWriteSyncer _ _ => true | _ => false end.

(** ** The heap *)

(** A [bufio.Writer]: the array [buf], the fill count [n] and the sticky
    error [err].  Its destination [wr] is the second field of
    [bufferWriterSyncer]. *)
Record bufioWriter : Type := mkBufio {
  buf : bytes;
  n : Z;
  err : error
}.

(** A [time.Ticker]: its period in nanoseconds and whether [Stop] was
    called. *)
Record Ticker : Type := mkTicker {
  period : Z;
  stopped : bool
}.

(** Heap objects.  [mu] is the embedded [sync.Mutex] ([true] when held),
    [stop] is the channel [stop] ([true] once closed). *)
Inductive object : Type :=
| lockedObj (mu : bool)
| bufferObj (mu : bool) (stop : bool) (ticker : Ticker)
            (bufferWriter : bufioWriter).

Definition mutex_of (o : object) : bool :=
  match o with lockedObj mu => mu | bufferObj mu _ _ _ => mu end.

Definition set_mutex (held : bool) (o : object) : object :=
  match o with
  | lockedObj _ => lockedObj held
  | bufferObj _ st tk bw => bufferObj held st tk bw
  end.

(** ** The world and the monad of method calls *)

Section Monad.

Context {S : Type}.

(** The state of the outside world (owned by the foreign sinks) and the
    heap of the objects this file allocates. *)
Record World : Type := mkWorld {
  outside : S;
  heap : gmap addr object
}.

Definition set_heap (h : gmap addr object) (st : World) : World :=
  mkWorld (outside st) h.

Inductive Outcome (A : Type) : Type :=
| Ret (a : A) (st : World)
| Panic (msg : string) (st : World)
| Blocked
| OutOfFuel.

#[global] Arguments Ret {A} a st.
#[global] Arguments Panic {A} msg st.
#[global] Arguments Blocked {A}.
#[global] Arguments OutOfFuel {A}.

Definition M (A : Type) : Type := World -> Outcome A.

Definition ret {A} (a : A) : M A := fun st => Ret a st.

Definition bind {A B} (m : M A) (k : A -> M B) : M B :=
  fun st =>
    match m st with
    | Ret a st' => k a st'
    | Panic msg st' => Panic msg st'
    | Blocked => Blocked
    | OutOfFuel => OutOfFuel
    end.

Definition panic {A} (msg : string) : M A := fun st => Panic msg st.

(** [defer d; body]: [d] runs when [body] returns and when it panics. *)
Definition defer {A} (d : M unit) (body : M A) : M A :=
  fun st =>
    match body st with
    | Ret a st' => bind d (fun _ => ret a) st'
    | Panic msg st' => bind d (fun _ => panic msg) st'
    | Blocked => Blocked
    | OutOfFuel => OutOfFuel
    end.

(** A call of a foreign method. *)
Definition foreign {A} (f : S -> A * S) : M A :=
  fun st => let '(a, s') := f (outside st) in Ret a (mkWorld s' (heap st)).

End Monad.

#[global] Arguments World S : clear implicits.
#[global] Arguments Outcome S A : clear implicits.
#[global] Arguments M S A : clear implicits.

Declare Scope go_scope.
Delimit Scope go_scope with go.

Notation "x <- c1 ;; c2" := (bind c1 (fun x => c2))
  (at level 20, c1 at level 99, c2 at level 200, only parsing) : go_scope.
Notation "' pat <- c1 ;; c2" :=
  (bind c1 (fun x => match x with pat => c2 end))
  (at level 20, pat pattern, c1 at level 99, c2 at level 200, only parsing)
  : go_scope.
Notation "c1 ;;; c2" := (bind c1 (fun _ => c2))
  (at level 100, c2 at level 200, only parsing, right associativity)
  : go_scope.

Local Open Scope go_scope.

(** ** Sinks declared elsewhere *)

(** The behaviour of the foreign writers and syncers a program is linked
    with: each call returns its results and the next state of the outside
    world [S]. *)
Class Foreign (S : Type) : Type := {
  writer_Write : nat -> bytes -> S -> (Z * error) * S;
  syncer_Write : nat -> bytes -> S -> (Z * error) * S;
  syncer_Sync : nat -> S -> error * S
}.

Section Model.

Context {S : Type} {F : Foreign S}.

(** ** Memory *)

Definition nil_deref : string :=
  "invalid memory address or nil pointer dereference".

Definition load (a : addr) : M S object :=
  fun st =>
    match heap st !! a with
    | Some o => Ret o st
    | None => Panic nil_deref st
    end.

Definition store (a : addr) (o : object) : M S unit :=
  fun st => Ret tt (set_heap (<[a := o]> (heap st)) st).

(** Allocation returns an address that is not in use. *)
Definition alloc (o : object) : M S addr :=
  fun st =>
    let a := fresh (dom (heap st)) in
    Ret a (set_heap (<[a := o]> (heap st)) st).

(** ** sync.Mutex *)

(** The imported packages [sync] and [time] and the built-in channels are
    modelled after the Go language and standard library, as far as this
    file uses them.  [Lock] on a mutex that is held never returns in a run
    of one goroutine; [Unlock] on a mutex that is not held is a fatal
    error. *)
Definition mutex_Lock (a : addr) : M S unit :=
  o <- load a ;;
  if mutex_of o then (fun _ => Blocked) else store a (set_mutex true o).

Definition mutex_Unlock (a : addr) : M S unit :=
  o <- load a ;;
  if mutex_of o then store a (set_mutex false o)
  else panic "sync: unlock of unlocked mutex".

(** ** time.Ticker and the channel stop *)

(** [time.NewTicker(d)], which panics unless [d] is positive. *)
Definition NewTicker (d : Z) : M S Ticker :=
  if d <=? 0 then panic "non-positive interval for NewTicker"
  else ret (mkTicker d false).

(** [s.ticker.Stop()] *)
Definition ticker_Stop (a : addr) : M S unit :=
  o <- load a ;;
  match o with
  | bufferObj mu st tk bw =>
      store a (bufferObj mu st (mkTicker (period tk) true) bw)
  | lockedObj _ => panic nil_deref
  end.

(** [close(s.stop)]; closing a closed channel panics. *)
Definition close_stop (a : addr) : M S unit :=
  o <- load a ;;
  match o with
  | bufferObj mu st tk bw =>
      if st then panic "close of closed channel"
      else store a (bufferObj mu true tk bw)
  | lockedObj _ => panic nil_deref
  end.

(** ** bufio.Writer *)

(** Modelled from the spec: the imported package [bufio] is not part of the
    source tree.  The definitions follow the Go standard library's
    [bufio.Writer] ([NewWriterSize], [Available], [Buffered], [Flush],
    [Write]), which is the "underlying buffered writer" of the spec: it
    "writes the record as one physical op, unsplit, when nothing precedes
    it", "may perform a physical write if the buffer cannot hold" the bytes,
    and retains "the first error internally". *)
Definition defaultBufSize : Z := 4096.

(** [bufio.NewWriterSize(w, size)].  The destination is a [WriteSyncer], so
    it is never itself a [*bufio.Writer] (which has no [Sync]). *)
Definition NewWriterSize (size : Z) : bufioWriter :=
  let size := if size <=? 0 then defaultBufSize else size in
  mkBufio (replicate (Z.to_nat size) x00%byte) 0 nil_error.

Definition Available (b : bufioWriter) : Z := len (buf b) - n b.
Definition Buffered (b : bufioWriter) : Z := n b.

Definition load_bufio (a : addr) : M S bufioWriter :=
  o <- load a ;;
  match o with
  | bufferObj _ _ _ bw => ret bw
  | lockedObj _ => panic nil_deref
  end.

Definition store_bufio (a : addr) (bw : bufioWriter) : M S unit :=
  o <- load a ;;
  match o with
  | bufferObj mu st tk _ => store a (bufferObj mu st tk bw)
  | lockedObj _ => panic nil_deref
  end.

Definition slice_or_panic (p : bytes) (i j : Z) : M S bytes :=
  match slice p i j with
  | Some q => ret q
  | None => panic "slice bounds out of range"
  end.

(** [n := copy(b.buf[b.n:], p); b.n += n] *)
Definition bufio_fill (a : addr) (p : bytes) : M S Z :=
  b <- load_bufio a ;;
  _ <- slice_or_panic (buf b) (n b) (len (buf b)) ;;
  let '(buf', k) := copy_at (buf b) (n b) p in
  store_bufio a (mkBufio buf' (n b + k) (err b)) ;;;
  ret k.

Section bufio.

(** [b.wr.Write] *)
Variable wr_Write : bytes -> M S (Z * error).

Definition bufio_Flush (a : addr) : M S error :=
  b <- load_bufio a ;;
  if negb (is_nil (err b)) then ret (err b)
  else if n b =? 0 then ret nil_error
  else
    p <- slice_or_panic (buf b) 0 (n b) ;;
    ' (m, e) <- wr_Write p ;;
    b <- load_bufio a ;;
    let e := if (m <? n b) && is_nil e then ErrShortWrite else e in
    if negb (is_nil e) then
      buf' <- (if (0 <? m) && (m <? n b)
               then src <- slice_or_panic (buf b) m (n b) ;;
                    _ <- slice_or_panic (buf b) 0 (n b - m) ;;
                    ret (fst (copy_at (buf b) 0 src))
               else ret (buf b)) ;;
      store_bufio a (mkBufio buf' (n b - m) e) ;;;
      ret e
    else
      store_bufio a (mkBufio (buf b) 0 (err b)) ;;;
      ret nil_error.

(** The loop of [Write]; [nn] is the count accumulated so far.  Each
    iteration uses one unit of [fuel]. *)
Fixpoint bufio_Write_loop (fuel : nat) (a : addr) (p : bytes) (nn : Z)
  : M S (Z * error) :=
  b <- load_bufio a ;;
  if (len p >? Available b) && is_nil (err b) then
    match fuel with
    | O => fun _ => OutOfFuel
    | Datatypes.S fuel' =>
        m <- (if Buffered b =? 0
              then ' (m, e) <- wr_Write p ;;
                   b <- load_bufio a ;;
                   store_bufio a (mkBufio (buf b) (n b) e) ;;;
                   ret m
              else m <- bufio_fill a p ;;
                   _ <- bufio_Flush a ;;
                   ret m) ;;
        p' <- slice_or_panic p m (len p) ;;
        bufio_Write_loop fuel' a p' (nn + m)
    end
  else if negb (is_nil (err b)) then ret (nn, err b)
  else
    m <- bufio_fill a p ;;
    ret (nn + m, nil_error).

Definition bufio_Write (fuel : nat) (a : addr) (p : bytes)
  : M S (Z * error) :=
  bufio_Write_loop fuel a p 0.

End bufio.

(** ** Methods *)

(** Each method body takes the methods of the wrapped sink as arguments;
    [Write] and [Sync] below tie the knot by dynamic dispatch. *)

(** [func (s *lockedWriteSyncer) Write(bs []byte) (int, error)] *)
Definition lockedWriteSyncer_Write (a : addr)
    (ws_Write : bytes -> M S (Z * error)) (bs : bytes) : M S (Z * error) :=
  mutex_Lock a ;;;
  ' (n, err) <- ws_Write bs ;;
  mutex_Unlock a ;;;
  ret (n, err).

(** [func (s *lockedWriteSyncer) Sync() error] *)
Definition lockedWriteSyncer_Sync (a : addr) (ws_Sync : M S error)
  : M S error :=
  mutex_Lock a ;;;
  err <- ws_Sync ;;
  mutex_Unlock a ;;;
  ret err.

(** The test of the manual flush in [bufferWriterSyncer.Write]:
    [len(bs) > s.bufferWriter.Available() && s.bufferWriter.Buffered() > 0] *)
Definition must_flush_first (b : bufioWriter) (bs : bytes) : bool :=
  (len bs >? Available b) && (Buffered b >? 0).

(** [func (s *bufferWriterSyncer) Write(bs []byte) (int, error)] *)
Definition bufferWriterSyncer_Write (fuel : nat) (a : addr)
    (wr_Write : bytes -> M S (Z * error)) (bs : bytes) : M S (Z * error) :=
  mutex_Lock a ;;;
  defer (mutex_Unlock a)
    (b <- load_bufio a ;;
     if must_flush_first b bs then
       err <- bufio_Flush wr_Write a ;;
       if negb (is_nil err) then ret (0, err)
       else bufio_Write wr_Write fuel a bs
     else bufio_Write wr_Write fuel a bs).

(** [func (s *bufferWriterSyncer) Sync() error] *)
Definition bufferWriterSyncer_Sync (a : addr)
    (wr_Write : bytes -> M S (Z * error)) : M S error :=
  mutex_Lock a ;;;
  defer (mutex_Unlock a) (bufio_Flush wr_Write a).

(** [func (s *bufferWriterSyncer) close() error] *)
Definition bufferWriterSyncer_close (a : addr)
    (wr_Write : bytes -> M S (Z * error)) : M S error :=
  ticker_Stop a ;;;
  close_stop a ;;;
  bufferWriterSyncer_Sync a wr_Write.

(** What the [select] of [flushLoop] receives: a tick on [s.ticker.C], or
    the closing of [s.stop]. *)
Inductive wakeup : Type :=
| tick
| stop_closed.

(** [case <-s.stop]: nothing is ever sent on [stop], so the receive
    proceeds only once the channel is closed. *)
Definition recv_stop (a : addr) : M S unit :=
  o <- load a ;;
  match o with
  | bufferObj _ st _ _ => if st then ret tt else (fun _ => Blocked)
  | lockedObj _ => panic nil_deref
  end.

(** [func (s *bufferWriterSyncer) flushLoop()], run on the wake-ups its
    [select] receives, in order; with none left the goroutine is waiting
    in [select]. *)
Fixpoint flushLoop (a : addr) (wr_Write : bytes -> M S (Z * error))
    (wakeups : list wakeup) : M S unit :=
  match wakeups with
  | [] => fun _ => Blocked
  | tick :: rest =>
      _ <- bufferWriterSyncer_Sync a wr_Write ;;
      flushLoop a wr_Write rest
  | stop_closed :: _ => recv_stop a
  end.

(** [func (w writerWrapper) Sync() error] *)
Definition writerWrapper_Sync : M S error := ret nil_error.

Section multi.

Context {T : Type}.

(** The update of [nWritten] in the loop of [multiWriteSyncer.Write]. *)
Definition next_nWritten (nWritten n : Z) : Z :=
  if (nWritten =? 0) && negb (n =? 0) then n
  else if n <? nWritten then n
  else nWritten.

(** [for _, w := range ws] in [multiWriteSyncer.Write], entered with the
    current [writeErr] and [nWritten]. *)
Fixpoint multiWriteSyncer_Write_loop (w_Write : T -> M S (Z * error))
    (ws : list T) (writeErr : error) (nWritten : Z) : M S (Z * error) :=
  match ws with
  | [] => ret (nWritten, writeErr)
  | w :: ws' =>
      ' (n, err) <- w_Write w ;;
      multiWriteSyncer_Write_loop w_Write ws'
        (multierr.Append writeErr err) (next_nWritten nWritten n)
  end.

(** [func (ws multiWriteSyncer) Write(p []byte) (int, error)] *)
Definition multiWriteSyncer_Write (w_Write : T -> M S (Z * error))
    (ws : list T) : M S (Z * error) :=
  multiWriteSyncer_Write_loop w_Write ws nil_error 0.

(** [for _, w := range ws] in [multiWriteSyncer.Sync]. *)
Fixpoint multiWriteSyncer_Sync_loop (w_Sync : T -> M S error)
    (ws : list T) (err : error) : M S error :=
  match ws with
  | [] => ret err
  | w :: ws' =>
      e <- w_Sync w ;;
      multiWriteSyncer_Sync_loop w_Sync ws' (multierr.Append err e)
  end.

(** [func (ws multiWriteSyncer) Sync() error] *)
Definition multiWriteSyncer_Sync (w_Sync : T -> M S error) (ws : list T)
  : M S error :=
  multiWriteSyncer_Sync_loop w_Sync ws nil_error.

End multi.

(** [ws.Write(bs)] on an interface value.  [fuel] bounds the iterations of
    each loop of [bufio.Writer.Write] the call runs. *)
Fixpoint Write (fuel : nat) (ws : WriteSyncer) (bs : bytes) {struct ws}
  : M S (Z * error) :=
  match ws with
  | foreignSyncer id => foreign (syncer_Write id bs)
  | writerWrapper w =>
      match w with
      | foreignWriter id => foreign (writer_Write id bs)
      | ofWriteSyncer ws' => Write fuel ws' bs
      end
  | lockedWriteSyncer a ws' => lockedWriteSyncer_Write a (Write fuel ws') bs
  | bufferWriterSyncer a wr =>
      bufferWriterSyncer_Write fuel a (Write fuel wr) bs
  | multiWriteSyncer ws' =>
      multiWriteSyncer_Write (fun w => Write fuel w bs) ws'
  end.

(** [ws.Sync()] on an interface value. *)
Fixpoint Sync (fuel : nat) (ws : WriteSyncer) {struct ws} : M S error :=
  match ws with
  | foreignSyncer id => foreign (syncer_Sync id)
  | writerWrapper _ => writerWrapper_Sync
  | lockedWriteSyncer a ws' => lockedWriteSyncer_Sync a (Sync fuel ws')
  | bufferWriterSyncer a wr => bufferWriterSyncer_Sync a (Write fuel wr)
  | multiWriteSyncer ws' => multiWriteSyncer_Sync (Sync fuel) ws'
  end.

(** [w.Write(bs)] on an [io.Writer] interface value. *)
Definition Writer_Write (fuel : nat) (w : Writer) (bs : bytes)
  : M S (Z * error) :=
  match w with
  | foreignWriter id => foreign (writer_Write id bs)
  | ofWriteSyncer ws => Write fuel ws bs
  end.

(** ** Constructors *)

(** [func AddSync(w io.Writer) WriteSyncer] *)
Definition AddSync (w : Writer) : WriteSyncer :=
  match w with
  | ofWriteSyncer w => w
  | foreignWriter _ => writerWrapper w
  end.

(** [func Lock(ws WriteSyncer) WriteSyncer] *)
Definition Lock (ws : WriteSyncer) : M S WriteSyncer :=
  if is_lockedWriteSyncer ws then ret ws
  else
    a <- alloc (lockedObj false) ;;
    ret (lockedWriteSyncer a ws).

Definition _defaultBufferSize : Z := 256 * 1024.

(** [30 * time.Second], in nanoseconds. *)
Definition _defaultFlushInterval : Z := 30 * 1000000000.

(** [func Buffer(ws WriteSyncer, bufferSize int, flushInterval time.Duration)
    (_ WriteSyncer, close func() error)].  The second result is the method
    value [bws.close], to be run with the loop budget of its caller.  The
    goroutine started by [go bws.flushLoop()] is outside this model of one
    goroutine. *)
Definition Buffer (ws : WriteSyncer) (bufferSize : Z) (flushInterval : Z)
  : M S (WriteSyncer * (nat -> M S error)) :=
  let bufferSize :=
    if bufferSize =? 0 then _defaultBufferSize else bufferSize in
  let flushInterval :=
    if flushInterval =? 0 then _defaultFlushInterval else flushInterval in
  let bufferWriter := NewWriterSize bufferSize in
  ticker <- NewTicker flushInterval ;;
  a <- alloc (bufferObj false false ticker bufferWriter) ;;
  ret (bufferWriterSyncer a ws,
       fun fuel => bufferWriterSyncer_close a (Write fuel ws)).

(** [func NewMultiWriteSyncer(ws ...WriteSyncer) WriteSyncer] *)
Definition NewMultiWriteSyncer (ws : list WriteSyncer) : WriteSyncer :=
  match ws with
  | [w] => w
  | _ => multiWriteSyncer ws
  end.

(** ** Views of the heap *)

(** The world with the object at [a] replaced by [o]. *)
Definition with_object (a : addr) (o : object) (st : World S) : World S :=
  set_heap (<[a := o]> (heap st)) st.

(** The bytes a [bufio.Writer] holds: [b.buf[0:b.n]]. *)
Definition buffered (bw : bufioWriter) : bytes :=
  take (Z.to_nat (n bw)) (buf bw).

(** [w] leaves the object at [a] as it is: the case of every sink that
    neither is nor wraps the wrapper at [a]. *)
Definition leaves_object (w : bytes -> M S (Z * error)) (a : addr) : Prop :=
  forall p st r st', w p st = Ret r st' -> heap st' !! a = heap st !! a.

(** ** Reference descriptions *)

(** The result of a call with the returned value mapped by [f]. *)
Definition omap {A B} (f : A -> B) (o : Outcome S A) : Outcome S B :=
  match o with
  | Ret a st => Ret (f a) st
  | Panic msg st => Panic msg st
  | Blocked => Blocked
  | OutOfFuel => OutOfFuel
  end.

(** The sequel [k] of a call that returned; any other outcome stands. *)
Definition and_then {A B} (o : Outcome S A) (k : A -> World S -> Outcome S B)
  : Outcome S B :=
  match o with
  | Ret a st => k a st
  | Panic msg st => Panic msg st
  | Blocked => Blocked
  | OutOfFuel => OutOfFuel
  end.

(** Call [f] on every element in sequence order and collect what the calls
    return, whatever that is: no result stops the sequence. *)
Fixpoint each {T A} (f : T -> M S A) (ws : list T) : M S (list A) :=
  match ws with
  | [] => ret []
  | w :: ws' =>
      r <- f w ;;
      rs <- each f ws' ;;
      ret (r :: rs)
  end.

(** The underlying errors of the results of a sequence of calls. *)
Definition all_Errors (rs : list (Z * error)) : list string :=
  concat (map (fun r => multierr.Errors (snd r)) rs).

End Model.

(** The byte count of the fan-out write as the spec words it: "take the
    first non-zero count seen; thereafter, if any subsequent sink reports a
    smaller count, that smaller value becomes the new reported count". *)
Fixpoint then_smaller (cur : Z) (ns : list Z) : Z :=
  match ns with
  | [] => cur
  | n :: ns' => then_smaller (if n <? cur then n else cur) ns'
  end.

Fixpoint first_nonzero_then_smaller (ns : list Z) : Z :=
  match ns with
  | [] => 0
  | n :: ns' =>
      if n =? 0 then first_nonzero_then_smaller ns' else then_smaller n ns'
  end.

(** The same rule, except that a reported count that has dropped to 0 is
    forgotten: the next non-zero count is taken afresh.  [None] is "no
    count taken", [Some c] is the count [c <> 0] taken so far. *)
Definition take_count (n : Z) : option Z :=
  if n =? 0 then None else Some n.

Fixpoint reported_count_from (cur : option Z) (ns : list Z) : Z :=
  match ns with
  | [] => default 0 cur
  | n :: ns' =>
      match cur with
      | None => reported_count_from (take_count n) ns'
      | Some c =>
          if n <? c then reported_count_from (take_count n) ns'
          else reported_count_from (Some c) ns'
      end
  end.

Definition reported_count (ns : list Z) : Z := reported_count_from None ns.

(** ** Test doubles *)

(** A call received by a foreign sink. *)
Inductive call : Type :=
| call_Write (id : nat) (p : bytes)
| call_Sync (id : nat).

(** Foreign sinks that append every call they receive to a log and answer
    from a script: [wres id p] is what sink [id] returns from [Write(p)],
    [sres id] what it returns from [Sync()]. *)
Definition spy (wres : nat -> bytes -> Z * error) (sres : nat -> error)
  : Foreign (list call) :=
  {| writer_Write id p log := (wres id p, log ++ [call_Write id p]);
     syncer_Write id p log := (wres id p, log ++ [call_Write id p]);
     syncer_Sync id log := (sres id, log ++ [call_Sync id]) |}.

(** Sinks that accept every write in full and sync cleanly. *)
Definition accepting : Foreign (list call) :=
  spy (fun _ p => (len p, nil_error)) (fun _ => nil_error).

(** Nothing logged, nothing allocated. *)
Definition st0 : World (list call) := mkWorld [] ∅.

(** The bytes of a string literal. *)
Definition bytes_of (s : string) : bytes := list_byte_of_string s.

(** Three sinks; the second one fails and reports 0 bytes. *)
Definition second_fails : Foreign (list call) :=
  spy (fun id _ => match id with
                   | 1%nat => (0, errorString "disk full")
                   | _ => (4, nil_error)
                   end)
      (fun _ => nil_error).

(** Three sinks reporting 4, 0 and 7 bytes. *)
Definition third_longer : Foreign (list call) :=
  spy (fun id _ => match id with
                   | 0%nat => (4, nil_error)
                   | 1%nat => (0, errorString "disk full")
                   | _ => (7, nil_error)
                   end)
      (fun _ => nil_error).

(** [sinkA] returns [(4, nil)], [sinkB] returns [(4, errX)]. *)
Definition sinkA_sinkB : Foreign (list call) :=
  spy (fun id _ => match id with
                   | 0%nat => (4, nil_error)
                   | _ => (4, errorString "errX")
                   end)
      (fun _ => nil_error).

(** A sink that rejects every write. *)
Definition rejecting : Foreign (list call) :=
  spy (fun _ _ => (0, errorString "disk full")) (fun _ => nil_error).

Definition ticker30s : Ticker := mkTicker 30000000000 false.

(** A buffering wrapper of 10 bytes at address 0 that holds "12345", before
    anything reached its sink. *)
Definition holds_12345 : bufioWriter :=
  mkBufio (bytes_of "12345" ++ replicate 5 x00%byte) 5 nil_error.

Definition st_12345 : World (list call) :=
  mkWorld [] {[ 0%nat := bufferObj false false ticker30s holds_12345 ]}.

(** A sink that breaks the contract of [io.Writer]: it reports a negative
    count. *)
Definition miscounting : Foreign (list call) :=
  spy (fun _ _ => (-1, nil_error)) (fun _ => nil_error).

(** A buffering wrapper of 10 bytes at address 0, empty, and a free
    exclusive-access wrapper at address 1. *)
Definition st_locked : World (list call) :=
  mkWorld [] {[ 0%nat := bufferObj false false ticker30s (NewWriterSize 10);
                1%nat := lockedObj false ]}.

(** [st_12345] after a flush that the sink rejected. *)
Definition st_rejected : World (list call) :=
  mkWorld [call_Write 0 (bytes_of "12345")]
          {[ 0%nat := bufferObj false false ticker30s
                        (mkBufio (buf holds_12345) 5
                                 (errorString "disk full")) ]}.

(** ** Facts about errors *)

Section multierr_facts.

Import multierr.

Lemma Errors_Append (l r : error) :
  Errors (Append l r) = Errors l ++ Errors r.
Proof.
  destruct l, r; simpl; try reflexivity; now rewrite ?app_nil_r.
Qed.

Lemma Append_nil_iff (l r : error) :
  Append l r = nil_error <-> l = nil_error /\ r = nil_error.
Proof.
  destruct l, r; simpl; intuition congruence.
Qed.

Lemma Errors_fold_Append (es : list error) (e : error) :
  Errors (fold_left Append es e) = Errors e ++ concat (map Errors es).
Proof.
  revert e; induction es as [|x es IH]; intros e; simpl.
  - now rewrite app_nil_r.
  - rewrite IH, Errors_Append. now rewrite <- app_assoc.
Qed.

Lemma fold_Append_nil_iff (es : list error) (e : error) :
  fold_left Append es e = nil_error <->
  e = nil_error /\ Forall (fun x => x = nil_error) es.
Proof.
  revert e; induction es as [|x es IH]; intros e; simpl.
  - split; [intros ->; split; [reflexivity | constructor] | tauto].
  - rewrite IH, Append_nil_iff. split.
    + intros [[-> ->] Hes]. split; [reflexivity | now constructor].
    + intros [-> Hes]. inversion Hes; subst. tauto.
Qed.

Lemma is_nil_fold_Append (es : list error) :
  is_nil (fold_left Append es nil_error) = forallb is_nil es.
Proof.
  assert (H : forall e, is_nil (fold_left Append es e)
                        = is_nil e && forallb is_nil es).
  { induction es as [|x es IH]; intros e; simpl.
    - now rewrite andb_true_r.
    - rewrite IH. destruct e, x; reflexivity. }
  apply H.
Qed.

End multierr_facts.

(** ** Facts about the reported count *)

Lemma next_nWritten_zero (n : Z) : next_nWritten 0 n = n.
Proof.
  unfold next_nWritten; simpl.
  destruct (n =? 0) eqn:E; simpl; [|reflexivity].
  apply Z.eqb_eq in E; subst; reflexivity.
Qed.

Lemma default_take_count (n : Z) : default 0 (take_count n) = n.
Proof.
  unfold take_count. destruct (n =? 0) eqn:E; simpl; [|reflexivity].
  apply Z.eqb_eq in E; now subst.
Qed.

(** The loop variable [nWritten] is [0] exactly when no count is taken. *)
Lemma fold_next_nWritten (ns : list Z) (cur : option Z) :
  (forall c, cur = Some c -> c <> 0) ->
  fold_left next_nWritten ns (default 0 cur) = reported_count_from cur ns.
Proof.
  revert cur; induction ns as [|n ns IH]; intros cur Hcur; simpl.
  - reflexivity.
  - assert (Htake : forall c, take_count n = Some c -> c <> 0).
    { unfold take_count. intros c. destruct (n =? 0) eqn:E; [discriminate|].
      intros [= <-]. now apply Z.eqb_neq. }
    destruct cur as [c|]; simpl.
    + specialize (Hcur c eq_refl).
      unfold next_nWritten.
      destruct (c =? 0) eqn:Ec; [apply Z.eqb_eq in Ec; contradiction|].
      simpl. destruct (n <? c) eqn:Elt.
      * rewrite <- (IH (take_count n) Htake), default_take_count. reflexivity.
      * apply (IH (Some c)). intros c' [= <-]; assumption.
    + rewrite next_nWritten_zero.
      rewrite <- (IH (take_count n) Htake), default_take_count. reflexivity.
Qed.

Lemma fold_next_nWritten_reported (ns : list Z) :
  fold_left next_nWritten ns 0 = reported_count ns.
Proof.
  apply (fold_next_nWritten ns None). intros c [=].
Qed.

(** The two rules agree as long as no sink reports 0 after a count has been
    taken. *)
Lemma reported_count_from_no_zero (c : Z) (ns : list Z) :
  Forall (fun n => n <> 0) ns ->
  reported_count_from (Some c) ns = then_smaller c ns.
Proof.
  intros H; revert c; induction H as [|n ns Hn _ IH]; intros c; simpl.
  - reflexivity.
  - unfold take_count. destruct (n <? c); [|apply IH].
    destruct (n =? 0) eqn:E; [apply Z.eqb_eq in E; contradiction|apply IH].
Qed.

Lemma reported_count_no_zero (ns : list Z) :
  Forall (fun n => n <> 0) ns ->
  reported_count ns = first_nonzero_then_smaller ns.
Proof.
  intros H. destruct H as [|n ns Hn H]; [reflexivity|].
  unfold reported_count; simpl. unfold take_count.
  destruct (n =? 0) eqn:E; [apply Z.eqb_eq in E; contradiction|].
  now apply reported_count_from_no_zero.
Qed.

(** ** The fan-out wrapper *)

Section fanout.

Context {S : Type} {F : Foreign S}.

Import multierr.

Lemma bind_Ret {A B} (m : M S A) (k : A -> M S B) st a st' :
  m st = Ret a st' -> bind m k st = k a st'.
Proof. unfold bind. now intros ->. Qed.

(** The write loop calls every sink, then folds their results. *)
Lemma multiWriteSyncer_Write_loop_each {T} (f : T -> M S (Z * error))
    (ws : list T) (writeErr : error) (nWritten : Z) (st : World S) :
  multiWriteSyncer_Write_loop f ws writeErr nWritten st =
  omap (fun rs => (fold_left next_nWritten (map fst rs) nWritten,
                   fold_left Append (map snd rs) writeErr))
       (each f ws st).
Proof.
  revert writeErr nWritten st.
  induction ws as [|w ws IH]; intros writeErr nWritten st; simpl.
  - reflexivity.
  - unfold bind. destruct (f w st) as [[n e] st1| | |]; try reflexivity.
    rewrite IH. destruct (each f ws st1); reflexivity.
Qed.

Lemma multiWriteSyncer_Sync_loop_each {T} (f : T -> M S error)
    (ws : list T) (err : error) (st : World S) :
  multiWriteSyncer_Sync_loop f ws err st =
  omap (fun es => fold_left Append es err) (each f ws st).
Proof.
  revert err st. induction ws as [|w ws IH]; intros err st; simpl.
  - reflexivity.
  - unfold bind. destruct (f w st) as [e st1| | |]; try reflexivity.
    rewrite IH. destruct (each f ws st1); reflexivity.
Qed.

Lemma omap_omap {A B C} (g : B -> C) (f : A -> B) (o : Outcome S A) :
  omap g (omap f o) = omap (fun a => g (f a)) o.
Proof. destruct o; reflexivity. Qed.

Lemma omap_ext {A B} (f g : A -> B) (o : Outcome S A) :
  (forall a, f a = g a) -> omap f o = omap g o.
Proof. intros H. destruct o; simpl; now rewrite ?H. Qed.

(** A sequence of one sink: [NewMultiWriteSyncer] returns the sink. *)
Lemma each_singleton {T A} (f : T -> M S A) (w : T) (st : World S) :
  each f [w] st = omap (fun r => [r]) (f w st).
Proof.
  simpl. unfold bind, ret. destruct (f w st); reflexivity.
Qed.

(** What [Write] on the result of [NewMultiWriteSyncer] returns, in terms of
    what the sinks return. *)
Lemma NewMultiWriteSyncer_Write (fuel : nat) (ws : list WriteSyncer)
    (p : bytes) (st : World S) :
  Write fuel (NewMultiWriteSyncer ws) p st =
  omap (fun rs => (reported_count (map fst rs),
                   fold_left Append (map snd rs) nil_error))
       (each (fun w => Write fuel w p) ws st).
Proof.
  destruct ws as [|w [|w' ws]].
  - reflexivity.
  - unfold NewMultiWriteSyncer. rewrite each_singleton, omap_omap.
    destruct (Write fuel w p st) as [[n e] st1| | |]; simpl; try reflexivity.
    unfold reported_count; simpl. now rewrite default_take_count.
  - unfold NewMultiWriteSyncer.
    change (Write fuel (multiWriteSyncer (w :: w' :: ws)) p st)
      with (multiWriteSyncer_Write_loop (fun w => Write fuel w p)
              (w :: w' :: ws) nil_error 0 st).
    rewrite multiWriteSyncer_Write_loop_each.
    apply omap_ext. intros rs. now rewrite fold_next_nWritten_reported.
Qed.

Lemma NewMultiWriteSyncer_Sync (fuel : nat) (ws : list WriteSyncer)
    (st : World S) :
  Sync fuel (NewMultiWriteSyncer ws) st =
  omap (fun es => fold_left Append es nil_error) (each (Sync fuel) ws st).
Proof.
  destruct ws as [|w [|w' ws]].
  - reflexivity.
  - unfold NewMultiWriteSyncer. rewrite each_singleton, omap_omap.
    destruct (Sync fuel w st) as [e st1| | |]; reflexivity.
  - unfold NewMultiWriteSyncer.
    change (Sync fuel (multiWriteSyncer (w :: w' :: ws)) st)
      with (multiWriteSyncer_Sync_loop (Sync fuel)
              (w :: w' :: ws) nil_error st).
    apply multiWriteSyncer_Sync_loop_each.
Qed.

End fanout.

(** ** Fan-out against logging sinks *)

Lemma each_Write_spy wres sres (fuel : nat) (ids : list nat) (p : bytes)
    (log : list call) (h : gmap addr object) :
  each (fun w => Write (F := spy wres sres) fuel w p)
       (map foreignSyncer ids) (mkWorld log h) =
  Ret (map (fun id => wres id p) ids)
      (mkWorld (log ++ map (fun id => call_Write id p) ids) h).
Proof.
  revert log; induction ids as [|id ids IH]; intros log; simpl.
  - now rewrite app_nil_r.
  - unfold bind, foreign; simpl. rewrite IH. unfold ret.
    now rewrite <- app_assoc.
Qed.

Lemma each_Sync_spy wres sres (fuel : nat) (ids : list nat)
    (log : list call) (h : gmap addr object) :
  each (Sync (F := spy wres sres) fuel)
       (map foreignSyncer ids) (mkWorld log h) =
  Ret (map sres ids) (mkWorld (log ++ map call_Sync ids) h).
Proof.
  revert log; induction ids as [|id ids IH]; intros log; simpl.
  - now rewrite app_nil_r.
  - unfold bind, foreign; simpl. rewrite IH. unfold ret.
    now rewrite <- app_assoc.
Qed.

(** ** Fan-out: the reported count *)

(** C1: the code misses the rule of the claim, which is also what the
    comment over [Write] promises ("the smallest number is returned").
    With sinks reporting 4, 0 and 4 the fan-out write returns 4, where
    "first non-zero count, thereafter every strictly smaller count" gives
    0, the smallest: [nWritten == 0] is read as "no count yet" although a
    sink reported 0. *)
Lemma multiWriteSyncer_Write_count_counterexample :
  let ws := [foreignSyncer 0; foreignSyncer 1; foreignSyncer 2]%nat in
  (2 <= length ws)%nat /\
  exists rs st e,
    each (fun w => Write (F := second_fails) 0 w (bytes_of "test")) ws st0
      = Ret rs st /\
    map fst rs = [4; 0; 4] /\
    Write (F := second_fails) 0 (NewMultiWriteSyncer ws) (bytes_of "test") st0
      = Ret (4, e) st /\
    first_nonzero_then_smaller (map fst rs) = 0 /\
    4 <> first_nonzero_then_smaller (map fst rs).
Proof.
  split; [simpl; lia|].
  eexists _, _, _. split; [vm_compute; reflexivity|].
  repeat split; try reflexivity. discriminate.
Qed.

(** With sinks reporting 4, 0 and 7 the fan-out write returns 7, which is
    neither the smallest count nor the smallest non-zero count. *)
Lemma multiWriteSyncer_Write_count_not_smallest :
  let ws := [foreignSyncer 0; foreignSyncer 1; foreignSyncer 2]%nat in
  exists rs st e,
    each (fun w => Write (F := third_longer) 0 w (bytes_of "test")) ws st0
      = Ret rs st /\
    map fst rs = [4; 0; 7] /\
    Write (F := third_longer) 0 (NewMultiWriteSyncer ws) (bytes_of "test") st0
      = Ret (7, e) st.
Proof.
  eexists _, _, _. split; [vm_compute; reflexivity|].
  split; reflexivity.
Qed.

(** What the loop of the fan-out write computes, for every sink sequence
    and every input: the call returns exactly when every sink's write
    returns, and its count is [reported_count] of the counts the sinks
    report in sequence order.  A count that has dropped to 0 is replaced
    by the next non-zero count, which is how the two inputs above come
    out. *)
Theorem multiWriteSyncer_Write_count :
  forall (S : Type) (F : Foreign S) (fuel : nat) (ws : list WriteSyncer)
         (p : bytes) (st : World S),
    omap fst (Write fuel (NewMultiWriteSyncer ws) p st) =
    omap (fun rs => reported_count (map fst rs))
         (each (fun w => Write fuel w p) ws st).
Proof.
  intros. rewrite NewMultiWriteSyncer_Write, omap_omap. reflexivity.
Qed.

(** ** Fan-out: errors *)

(** C3: the fan-out write calls [Write] on every sink in sequence order
    whatever the earlier sinks return, and the error it returns has as
    underlying errors those of every sink, in order.  Against scripted
    sinks that log their calls, the log grows by one [Write(p)] per sink,
    in order, for every script.  [combine(sinkA, sinkB)] returns
    [(4, errX)] on a 4-byte input. *)
Theorem multiWriteSyncer_Write_all_sinks :
  (forall (S : Type) (F : Foreign S) (fuel : nat) (ws : list WriteSyncer)
          (p : bytes) (st : World S),
     omap (fun r => multierr.Errors (snd r))
          (Write fuel (NewMultiWriteSyncer ws) p st) =
     omap (fun rs => concat (map (fun r => multierr.Errors (snd r)) rs))
          (each (fun w => Write fuel w p) ws st)) /\
  (forall wres sres (fuel : nat) (ids : list nat) (p : bytes)
          (log : list call) (h : gmap addr object),
     exists r,
       Write (F := spy wres sres) fuel
             (NewMultiWriteSyncer (map foreignSyncer ids)) p (mkWorld log h)
       = Ret r (mkWorld (log ++ map (fun id => call_Write id p) ids) h) /\
       multierr.Errors (snd r) =
       concat (map (fun id => multierr.Errors (snd (wres id p))) ids)) /\
  Write (F := sinkA_sinkB) 0
        (NewMultiWriteSyncer [foreignSyncer 0; foreignSyncer 1]%nat)
        (bytes_of "test") st0
  = Ret (4, errorString "errX")
        (mkWorld [call_Write 0 (bytes_of "test");
                  call_Write 1 (bytes_of "test")] ∅).
Proof.
  split; [|split].
  - intros. rewrite NewMultiWriteSyncer_Write, omap_omap.
    apply omap_ext. intros rs; simpl.
    rewrite Errors_fold_Append; simpl. now rewrite map_map.
  - intros. rewrite NewMultiWriteSyncer_Write, each_Write_spy; simpl.
    eexists; split; [reflexivity|]. simpl.
    rewrite Errors_fold_Append; simpl. now rewrite !map_map.
  - vm_compute. reflexivity.
Qed.

(** C7: the fan-out [Sync] calls [Sync] on every sink in sequence order
    whatever the earlier sinks return; the error it returns has as
    underlying errors those of every sink, and is [nil] if and only if
    every sink returned [nil].  Against scripted sinks that log their
    calls, the log grows by one [Sync()] per sink, in order, for every
    script. *)
Theorem multiWriteSyncer_Sync_all_sinks :
  (forall (S : Type) (F : Foreign S) (fuel : nat) (ws : list WriteSyncer)
          (st : World S),
     omap multierr.Errors (Sync fuel (NewMultiWriteSyncer ws) st) =
     omap (fun es => concat (map multierr.Errors es))
          (each (Sync fuel) ws st) /\
     omap is_nil (Sync fuel (NewMultiWriteSyncer ws) st) =
     omap (forallb is_nil) (each (Sync fuel) ws st)) /\
  (forall wres sres (fuel : nat) (ids : list nat)
          (log : list call) (h : gmap addr object),
     exists e,
       Sync (F := spy wres sres) fuel
            (NewMultiWriteSyncer (map foreignSyncer ids)) (mkWorld log h)
       = Ret e (mkWorld (log ++ map call_Sync ids) h) /\
       (e = nil_error <-> Forall (fun id => sres id = nil_error) ids)).
Proof.
  split.
  - intros. rewrite NewMultiWriteSyncer_Sync, !omap_omap. split.
    + apply omap_ext. intros es. now rewrite Errors_fold_Append.
    + apply omap_ext. intros es. apply is_nil_fold_Append.
  - intros. rewrite NewMultiWriteSyncer_Sync, each_Sync_spy; simpl.
    eexists; split; [reflexivity|].
    rewrite fold_Append_nil_iff, Forall_map. tauto.
Qed.

(** C10: for the empty sequence [NewMultiWriteSyncer] returns the empty
    [multiWriteSyncer]; its [Write] returns [(0, nil)] for every input and
    its [Sync] returns [nil], both without any effect. *)
Theorem NewMultiWriteSyncer_empty :
  forall (S : Type) (F : Foreign S) (fuel : nat) (p : bytes) (st : World S),
    NewMultiWriteSyncer [] = multiWriteSyncer [] /\
    Write fuel (NewMultiWriteSyncer []) p st = Ret (0, nil_error) st /\
    Sync fuel (NewMultiWriteSyncer []) st = Ret nil_error st.
Proof. intros. repeat split. Qed.

(** ** The exclusive-access wrapper *)

Lemma Lock_locked {S : Type} (s : WriteSyncer) (st : World S) :
  is_lockedWriteSyncer s = true -> Lock s st = Ret s st.
Proof. unfold Lock. now intros ->. Qed.

Lemma Lock_other {S : Type} (s : WriteSyncer) (st : World S) :
  is_lockedWriteSyncer s = false ->
  Lock s st =
  Ret (lockedWriteSyncer (fresh (dom (heap st))) s)
      (set_heap (<[fresh (dom (heap st)) := lockedObj false]> (heap st)) st).
Proof. unfold Lock. now intros ->. Qed.

(** C5: [Lock] always returns a [*lockedWriteSyncer]; applied to its own
    result it returns that very pointer and allocates nothing, so
    [Lock(Lock(s))] is the same reference as [Lock(s)].  A sink that is
    already locked is returned as it is; any other sink is stored in a
    newly allocated wrapper whose mutex is free. *)
Theorem Lock_idempotent :
  forall (S : Type) (s : WriteSyncer) (st : World S),
  exists l st1,
    Lock s st = Ret l st1 /\
    is_lockedWriteSyncer l = true /\
    Lock l st1 = Ret l st1 /\
    bind (Lock s) Lock st = Lock s st /\
    (is_lockedWriteSyncer s = true -> l = s /\ st1 = st) /\
    (is_lockedWriteSyncer s = false ->
     exists a, l = lockedWriteSyncer a s /\ heap st !! a = None /\
               st1 = set_heap (<[a := lockedObj false]> (heap st)) st).
Proof.
  intros. destruct (is_lockedWriteSyncer s) eqn:E.
  - exists s, st. unfold bind. rewrite !(Lock_locked s st E).
    split; [reflexivity|]. split; [assumption|]. split; [reflexivity|].
    split; [reflexivity|]. split; [tauto|discriminate].
  - exists (lockedWriteSyncer (fresh (dom (heap st))) s),
      (set_heap (<[fresh (dom (heap st)) := lockedObj false]> (heap st)) st).
    unfold bind. rewrite !(Lock_other s st E).
    split; [reflexivity|]. split; [reflexivity|]. split; [reflexivity|].
    split; [reflexivity|]. split; [discriminate|].
    intros _. eexists. split; [reflexivity|]. split; [|reflexivity].
    apply not_elem_of_dom, is_fresh.
Qed.

(** ** The sink adapter *)

(** C6: [AddSync] applied to its own result returns that result; a writer
    whose dynamic type already has [Sync] is returned as it is; for any
    other writer the result's [Sync] returns [nil] and changes nothing,
    and its [Write] is the writer's. *)
Theorem AddSync_idempotent :
  forall (S : Type) (F : Foreign S) (fuel : nat) (w : Writer) (bs : bytes)
         (st : World S),
    AddSync (ofWriteSyncer (AddSync w)) = AddSync w /\
    (forall ws, AddSync (ofWriteSyncer ws) = ws) /\
    (forall id, Sync fuel (AddSync (foreignWriter id)) st
                = Ret nil_error st) /\
    Write fuel (AddSync w) bs st = Writer_Write fuel w bs st.
Proof.
  intros. repeat split. destruct w; reflexivity.
Qed.

(** ** The buffering wrapper: construction *)

Lemma len_replicate (k : Z) (x : byte) :
  0 <= k -> len (replicate (Z.to_nat k) x) = k.
Proof. intros H. unfold len. rewrite length_replicate. lia. Qed.

Lemma len_NewWriterSize (size : Z) :
  len (buf (NewWriterSize size)) = if size <=? 0 then defaultBufSize else size.
Proof.
  unfold NewWriterSize; simpl. apply len_replicate.
  destruct (size <=? 0) eqn:E; [unfold defaultBufSize; lia|].
  apply Z.leb_gt in E; lia.
Qed.

(** C4, as stated, fails for negative arguments: a buffer size of -1 gives
    a buffer of 4096 bytes, not 256 KiB, and a flush interval of -1 makes
    [Buffer] panic. *)
Lemma Buffer_nonpositive_counterexample :
  -1 <= 0 /\
  (exists a cl st' mu sc tk bw,
     Buffer (F := accepting) (foreignSyncer 0) (-1) 0 st0
       = Ret (bufferWriterSyncer a (foreignSyncer 0), cl) st' /\
     heap st' !! a = Some (bufferObj mu sc tk bw) /\
     len (buf bw) = 4096 /\
     len (buf bw) <> 256 * 1024) /\
  Buffer (F := accepting) (foreignSyncer 0) 0 (-1) st0
    = Panic "non-positive interval for NewTicker" st0.
Proof.
  split; [lia|]. split; [|reflexivity].
  eexists _, _, _, _, _, _, _.
  split; [reflexivity|]. split; [vm_compute; reflexivity|].
  split; [|intros H; vm_compute in H; discriminate].
  vm_compute. reflexivity.
Qed.

(** C4, amended: a buffer size of 0 selects a buffer of 256 KiB and a flush
    interval of 0 selects a period of 30 seconds.  Any other value is
    passed on as it is: a positive size or interval is used, a negative
    size makes [bufio.NewWriterSize] fall back to its own 4096 bytes, and a
    negative interval makes [time.NewTicker] panic. *)
Theorem Buffer_defaults :
  forall (S : Type) (F : Foreign S) (ws : WriteSyncer)
         (bufferSize flushInterval : Z) (st : World S),
    (0 <= flushInterval ->
     exists a cl st' tk bw,
       Buffer ws bufferSize flushInterval st
         = Ret (bufferWriterSyncer a ws, cl) st' /\
       heap st' !! a = Some (bufferObj false false tk bw) /\
       (bufferSize = 0 -> len (buf bw) = 256 * 1024) /\
       (flushInterval = 0 -> period tk = 30 * 1000000000) /\
       (0 < bufferSize -> len (buf bw) = bufferSize) /\
       (0 < flushInterval -> period tk = flushInterval) /\
       (bufferSize < 0 -> len (buf bw) = 4096)) /\
    (flushInterval < 0 ->
     Buffer ws bufferSize flushInterval st
       = Panic "non-positive interval for NewTicker" st).
Proof.
  intros. unfold Buffer, NewTicker, bind, alloc, ret, panic. split.
  - intros Hi.
    destruct ((if flushInterval =? 0 then _defaultFlushInterval
               else flushInterval) <=? 0) eqn:E.
    { exfalso. apply Z.leb_le in E. unfold _defaultFlushInterval in E.
      destruct (flushInterval =? 0) eqn:E0; [lia|].
      apply Z.eqb_neq in E0. lia. }
    eexists _, _, _, _, _. split; [reflexivity|].
    split; [apply lookup_insert_eq|].
    rewrite len_NewWriterSize. cbn [period].
    unfold _defaultBufferSize, defaultBufSize.
    repeat split; intros H.
    + subst; reflexivity.
    + subst; reflexivity.
    + destruct (bufferSize =? 0) eqn:E0; [apply Z.eqb_eq in E0; lia|].
      destruct (bufferSize <=? 0) eqn:E1; [apply Z.leb_le in E1; lia|].
      reflexivity.
    + destruct (flushInterval =? 0) eqn:E0; [apply Z.eqb_eq in E0; lia|].
      reflexivity.
    + destruct (bufferSize =? 0) eqn:E0; [apply Z.eqb_eq in E0; lia|].
      destruct (bufferSize <=? 0) eqn:E1; [|apply Z.leb_gt in E1; lia].
      reflexivity.
  - intros Hi.
    destruct (flushInterval =? 0) eqn:E0; [apply Z.eqb_eq in E0; lia|].
    destruct (flushInterval <=? 0) eqn:E; [reflexivity|].
    apply Z.leb_gt in E. lia.
Qed.

Lemma Buffer_defaults_witness :
  0 <= 0 /\
  exists a cl st' tk bw,
    Buffer (F := accepting) (foreignSyncer 0) 0 0 st0
      = Ret (bufferWriterSyncer a (foreignSyncer 0), cl) st' /\
    heap st' !! a = Some (bufferObj false false tk bw) /\
    len (buf bw) = 256 * 1024 /\
    period tk = 30 * 1000000000.
Proof.
  split; [lia|].
  destruct (Buffer_defaults _ accepting (foreignSyncer 0) 0 0 st0)
    as [H _].
  destruct (H ltac:(lia)) as (a & cl & st' & tk & bw & E & Hh & Hs & Hp & _).
  exists a, cl, st', tk, bw.
  split; [exact E|]. split; [exact Hh|].
  split; [apply Hs; reflexivity | apply Hp; reflexivity].
Defined.

(** ** The buffering wrapper: write, flush and close *)

Section buffering.

Context {S : Type} {F : Foreign S}.

Lemma heap_with_object a o (st : World S) :
  heap (with_object a o st) !! a = Some o.
Proof. apply lookup_insert_eq. Qed.

Lemma with_object_twice a o o' (st : World S) :
  with_object a o' (with_object a o st) = with_object a o' st.
Proof.
  unfold with_object, set_heap; simpl. now rewrite insert_insert_eq.
Qed.

Lemma load_Some a o (st : World S) :
  heap st !! a = Some o -> load a st = Ret o st.
Proof. unfold load. now intros ->. Qed.

Lemma mutex_Lock_free a o (st : World S) :
  heap st !! a = Some o -> mutex_of o = false ->
  mutex_Lock a st = Ret tt (with_object a (set_mutex true o) st).
Proof.
  intros H Hm. unfold mutex_Lock, bind. rewrite (load_Some _ _ _ H), Hm.
  reflexivity.
Qed.

Lemma mutex_Unlock_held a o (st : World S) :
  heap st !! a = Some o -> mutex_of o = true ->
  mutex_Unlock a st = Ret tt (with_object a (set_mutex false o) st).
Proof.
  intros H Hm. unfold mutex_Unlock, bind. rewrite (load_Some _ _ _ H), Hm.
  reflexivity.
Qed.

Lemma load_bufio_Some a mu sc tk bw (st : World S) :
  heap st !! a = Some (bufferObj mu sc tk bw) -> load_bufio a st = Ret bw st.
Proof.
  intros H. unfold load_bufio, bind. now rewrite (load_Some _ _ _ H).
Qed.

Lemma store_bufio_Some a mu sc tk bw bw' (st : World S) :
  heap st !! a = Some (bufferObj mu sc tk bw) ->
  store_bufio a bw' st = Ret tt (with_object a (bufferObj mu sc tk bw') st).
Proof.
  intros H. unfold store_bufio, bind. now rewrite (load_Some _ _ _ H).
Qed.

(** [Write] on a buffering wrapper whose mutex is free: the mutex is taken,
    the manual flush is decided on the buffer as it is, and the mutex is
    released on the way out. *)
Lemma bufferWriterSyncer_Write_unfold fuel a wr bs sc tk bw (st : World S) :
  heap st !! a = Some (bufferObj false sc tk bw) ->
  Write fuel (bufferWriterSyncer a wr) bs st =
  defer (mutex_Unlock a)
    (if must_flush_first bw bs then
       err <- bufio_Flush (Write fuel wr) a ;;
       if negb (is_nil err) then ret (0, err)
       else bufio_Write (Write fuel wr) fuel a bs
     else bufio_Write (Write fuel wr) fuel a bs)
    (with_object a (bufferObj true sc tk bw) st).
Proof.
  intros H. cbn [Write]. unfold bufferWriterSyncer_Write.
  unfold bind at 1. rewrite (mutex_Lock_free _ _ _ H eq_refl). cbn [set_mutex].
  unfold defer. unfold bind at 1 3.
  rewrite (load_bufio_Some _ _ _ _ _ _ (heap_with_object _ _ _)).
  reflexivity.
Qed.

Lemma slice_prefix (p : bytes) (k : Z) :
  0 <= k <= len p -> slice p 0 k = Some (take (Z.to_nat k) p).
Proof.
  intros H. unfold slice.
  replace ((0 <=? 0) && (0 <=? k) && (k <=? len p)) with true
    by (symmetry; rewrite !andb_true_iff, !Z.leb_le; lia).
  now rewrite Z.sub_0_r.
Qed.

Lemma slice_suffix (p : bytes) (k : Z) :
  0 <= k <= len p -> slice p k (len p) = Some (drop (Z.to_nat k) p).
Proof.
  intros H. unfold slice.
  replace ((0 <=? k) && (k <=? len p) && (len p <=? len p)) with true
    by (symmetry; rewrite !andb_true_iff, !Z.leb_le; lia).
  f_equal. apply take_ge. rewrite length_drop. unfold len in *. lia.
Qed.

Section flush.

Variable wr_Write : bytes -> M S (Z * error).

(** A writer with a sticky error does not write again. *)
Lemma bufio_Flush_sticky a mu sc tk bw (st : World S) :
  heap st !! a = Some (bufferObj mu sc tk bw) ->
  err bw <> nil_error ->
  bufio_Flush wr_Write a st = Ret (err bw) st.
Proof.
  intros H He. unfold bufio_Flush, bind.
  rewrite (load_bufio_Some _ _ _ _ _ _ H).
  destruct (err bw); [contradiction| |]; reflexivity.
Qed.

(** A flush whose write is accepted in full empties the buffer. *)
Lemma bufio_Flush_accepted a mu sc tk bw (st st1 : World S) m :
  heap st !! a = Some (bufferObj mu sc tk bw) ->
  err bw = nil_error ->
  0 < n bw <= len (buf bw) ->
  wr_Write (buffered bw) st = Ret (m, nil_error) st1 ->
  n bw <= m ->
  heap st1 !! a = Some (bufferObj mu sc tk bw) ->
  bufio_Flush wr_Write a st =
  Ret nil_error
      (with_object a (bufferObj mu sc tk (mkBufio (buf bw) 0 nil_error))
                   st1).
Proof.
  intros H He Hn Hw Hm H1. unfold bufio_Flush, bind.
  rewrite (load_bufio_Some _ _ _ _ _ _ H), He. cbn [is_nil negb].
  replace (n bw =? 0) with false by (symmetry; apply Z.eqb_neq; lia).
  unfold slice_or_panic. rewrite slice_prefix by lia.
  unfold ret at 1. fold (buffered bw). rewrite Hw.
  rewrite (load_bufio_Some _ _ _ _ _ _ H1).
  replace (m <? n bw) with false by (symmetry; apply Z.ltb_ge; lia).
  cbn [andb is_nil negb].
  rewrite (store_bufio_Some _ _ _ _ _ _ _ H1), He. reflexivity.
Qed.

(** A flush whose write fails keeps the bytes that were not written and
    records the error. *)
Lemma bufio_Flush_rejected a mu sc tk bw (st st1 : World S) e :
  heap st !! a = Some (bufferObj mu sc tk bw) ->
  err bw = nil_error ->
  0 < n bw <= len (buf bw) ->
  wr_Write (buffered bw) st = Ret (0, e) st1 ->
  e <> nil_error ->
  heap st1 !! a = Some (bufferObj mu sc tk bw) ->
  bufio_Flush wr_Write a st =
  Ret e (with_object a (bufferObj mu sc tk (mkBufio (buf bw) (n bw) e))
                     st1).
Proof.
  intros H He Hn Hw Hne H1. unfold bufio_Flush, bind.
  rewrite (load_bufio_Some _ _ _ _ _ _ H), He. cbn [is_nil negb].
  replace (n bw =? 0) with false by (symmetry; apply Z.eqb_neq; lia).
  unfold slice_or_panic. rewrite slice_prefix by lia.
  unfold ret at 1. fold (buffered bw). rewrite Hw.
  rewrite (load_bufio_Some _ _ _ _ _ _ H1).
  replace (is_nil e) with false
    by (destruct e; [contradiction| |]; reflexivity).
  rewrite andb_false_r. cbn [negb andb Z.ltb Z.compare].
  replace (is_nil e) with false
    by (destruct e; [contradiction| |]; reflexivity).
  cbn [negb]. unfold ret at 1.
  rewrite (store_bufio_Some _ _ _ _ _ _ _ H1), Z.sub_0_r. reflexivity.
Qed.

(** Bytes that fit in the room left are copied behind the bytes already
    buffered; the destination is not called. *)
Lemma bufio_Write_fits fuel a mu sc tk bw bs (st : World S) :
  heap st !! a = Some (bufferObj mu sc tk bw) ->
  err bw = nil_error ->
  0 <= n bw <= len (buf bw) ->
  len bs <= Available bw ->
  exists bw',
    bufio_Write wr_Write fuel a bs st =
    Ret (len bs, nil_error) (with_object a (bufferObj mu sc tk bw') st) /\
    buffered bw' = buffered bw ++ bs /\
    len (buf bw') = len (buf bw) /\
    n bw' = n bw + len bs /\
    err bw' = nil_error.
Proof.
  intros H He Hn Hfit. unfold Available in Hfit.
  exists (mkBufio (fst (copy_at (buf bw) (n bw) bs)) (n bw + len bs)
                  nil_error).
  assert (Hk : Z.min (len (buf bw) - n bw) (len bs) = len bs) by lia.
  split; [|split; [|split; [|split]]]; try reflexivity.
  - unfold bufio_Write.
    assert (E : bufio_Write_loop wr_Write fuel a bs 0 st =
                bind (bufio_fill a bs)
                     (fun m => ret (0 + m, nil_error)) st).
    { destruct fuel; cbn [bufio_Write_loop]; unfold bind at 1;
        rewrite (load_bufio_Some _ _ _ _ _ _ H), He;
        unfold Available;
        replace (len bs >? len (buf bw) - n bw) with false
          by (symmetry; rewrite Z.gtb_ltb; apply Z.ltb_ge; lia);
        reflexivity. }
    rewrite E. unfold bind at 1, bufio_fill. unfold bind at 1.
    rewrite (load_bufio_Some _ _ _ _ _ _ H).
    unfold bind at 1, slice_or_panic. rewrite slice_suffix by lia.
    unfold ret at 1. unfold copy_at. rewrite Hk.
    unfold bind at 1. rewrite (store_bufio_Some _ _ _ _ _ _ _ H), He.
    reflexivity.
  - unfold buffered, copy_at; cbn [buf n fst]. rewrite Hk.
    unfold len in *.
    rewrite take_app_ge by (rewrite length_take; lia).
    rewrite length_take.
    replace (take (Z.to_nat (n bw)) (take (Z.to_nat (n bw)) (buf bw)))
      with (take (Z.to_nat (n bw)) (buf bw))
      by (now rewrite take_take, Nat.min_id).
    f_equal.
    rewrite take_app_ge by (rewrite length_take; lia).
    rewrite length_take.
    replace (Z.to_nat (n bw + Z.of_nat (length bs))
             - Z.to_nat (n bw) `min` length (buf bw)
             - Z.to_nat (Z.of_nat (length bs)) `min` length bs)%nat
      with 0%nat by lia.
    rewrite take_0, app_nil_r. apply take_ge. lia.
  - unfold copy_at; cbn [buf fst]. rewrite Hk. unfold len in *.
    rewrite !length_app, !length_take, length_drop. lia.
Qed.

End flush.

Lemma with_object_same a o (st : World S) :
  heap st !! a = Some o -> with_object a o st = st.
Proof.
  intros H. destruct st as [out h]; unfold with_object, set_heap; simpl in *.
  now rewrite insert_id.
Qed.

Lemma must_flush_first_iff (bw : bufioWriter) (bs : bytes) :
  must_flush_first bw bs = true <-> 0 < Buffered bw /\ Available bw < len bs.
Proof.
  unfold must_flush_first. rewrite andb_true_iff, !Z.gtb_ltb, !Z.ltb_lt.
  tauto.
Qed.

Lemma must_flush_first_false_iff (bw : bufioWriter) (bs : bytes) :
  must_flush_first bw bs = false <->
  Buffered bw <= 0 \/ len bs <= Available bw.
Proof.
  unfold must_flush_first. rewrite andb_false_iff, !Z.gtb_ltb, !Z.ltb_ge.
  tauto.
Qed.

(** [defer] of the unlock after a body that returned with the mutex still
    held. *)
Lemma defer_Unlock_Ret {A} a sc tk bw (body : M S A) (r : A)
    (st st1 : World S) :
  body st = Ret r st1 ->
  heap st1 !! a = Some (bufferObj true sc tk bw) ->
  defer (mutex_Unlock a) body st =
  Ret r (with_object a (bufferObj false sc tk bw) st1).
Proof.
  intros Hb H. unfold defer. rewrite Hb. unfold bind.
  now rewrite (mutex_Unlock_held _ _ _ H eq_refl).
Qed.

End buffering.

(** A failed manual flush ends the call. *)
Lemma bufferWriterSyncer_Write_after_failed_Flush
    {S : Type} {F : Foreign S} fuel a wr bs sc tk bw (st st1 : World S)
    e sc1 tk1 bw1 :
  heap st !! a = Some (bufferObj false sc tk bw) ->
  must_flush_first bw bs = true ->
  bufio_Flush (Write fuel wr) a
              (with_object a (bufferObj true sc tk bw) st) = Ret e st1 ->
  e <> nil_error ->
  heap st1 !! a = Some (bufferObj true sc1 tk1 bw1) ->
  Write fuel (bufferWriterSyncer a wr) bs st =
  Ret (0, e) (with_object a (bufferObj false sc1 tk1 bw1) st1).
Proof.
  intros H Hc Hf He H1.
  rewrite (bufferWriterSyncer_Write_unfold _ _ _ _ _ _ _ _ H), Hc.
  eapply defer_Unlock_Ret; [|exact H1].
  unfold bind. rewrite Hf.
  destruct e; [contradiction| |]; reflexivity.
Qed.

(** The inner sink rejects the flushed bytes: the writer keeps them, with
    the error, and nothing of [bs]. *)
Lemma bufferWriterSyncer_Write_flush_rejected
    {S : Type} {F : Foreign S} fuel a wr bs sc tk bw (st st1 : World S) e :
  heap st !! a = Some (bufferObj false sc tk bw) ->
  must_flush_first bw bs = true ->
  err bw = nil_error ->
  n bw <= len (buf bw) ->
  Write fuel wr (buffered bw) (with_object a (bufferObj true sc tk bw) st)
    = Ret (0, e) st1 ->
  e <> nil_error ->
  heap st1 !! a = Some (bufferObj true sc tk bw) ->
  Write fuel (bufferWriterSyncer a wr) bs st =
  Ret (0, e)
      (with_object a (bufferObj false sc tk (mkBufio (buf bw) (n bw) e))
                   st1).
Proof.
  intros H Hc He Hn Hw Hne H1.
  apply must_flush_first_iff in Hc as Hc'. unfold Buffered in Hc'.
  pose proof (bufio_Flush_rejected (Write fuel wr) a true sc tk bw _ st1 e
                (heap_with_object _ _ _) He ltac:(lia) Hw Hne H1) as Hf.
  rewrite (bufferWriterSyncer_Write_after_failed_Flush fuel a wr bs sc tk bw
             st _ e sc tk (mkBufio (buf bw) (n bw) e) H Hc Hf Hne
             (heap_with_object _ _ _)).
  now rewrite with_object_twice.
Qed.

(** A writer with a sticky error: nothing is written and nothing changes. *)
Lemma bufferWriterSyncer_Write_flush_sticky
    {S : Type} {F : Foreign S} fuel a wr bs sc tk bw (st : World S) :
  heap st !! a = Some (bufferObj false sc tk bw) ->
  must_flush_first bw bs = true ->
  err bw <> nil_error ->
  Write fuel (bufferWriterSyncer a wr) bs st = Ret (0, err bw) st.
Proof.
  intros H Hc He.
  pose proof (bufio_Flush_sticky (Write fuel wr) a true sc tk bw
                (with_object a (bufferObj true sc tk bw) st)
                (heap_with_object _ _ _) He) as Hf.
  rewrite (bufferWriterSyncer_Write_after_failed_Flush fuel a wr bs sc tk bw
             st _ (err bw) sc tk bw H Hc Hf He (heap_with_object _ _ _)).
  now rewrite with_object_twice, (with_object_same _ _ _ H).
Qed.

(** C9: when the flush made before the write fails, [Write] returns 0 and
    the error of the flush, and leaves the [bufio.Writer] as the flush left
    it: the incoming bytes are not copied into the buffer. *)
Theorem bufferWriterSyncer_Write_flush_fails :
  forall (S : Type) (F : Foreign S) (fuel : nat) (a : addr)
         (wr : WriteSyncer) (bs : bytes) (sc : bool) (tk : Ticker)
         (bw : bufioWriter) (st : World S)
         (e : error) (st1 : World S) (sc1 : bool) (tk1 : Ticker)
         (bw1 : bufioWriter),
    heap st !! a = Some (bufferObj false sc tk bw) ->
    must_flush_first bw bs = true ->
    bufio_Flush (Write fuel wr) a
                (with_object a (bufferObj true sc tk bw) st) = Ret e st1 ->
    e <> nil_error ->
    heap st1 !! a = Some (bufferObj true sc1 tk1 bw1) ->
    Write fuel (bufferWriterSyncer a wr) bs st =
    Ret (0, e) (with_object a (bufferObj false sc1 tk1 bw1) st1).
Proof.
  intros * H Hc Hf He H1.
  rewrite (bufferWriterSyncer_Write_unfold _ _ _ _ _ _ _ _ H), Hc.
  unfold defer, bind at 1 3. rewrite Hf.
  assert (Hn : negb (is_nil e) = true)
    by (destruct e; [contradiction| |]; reflexivity).
  rewrite Hn. unfold ret at 1, bind.
  rewrite (mutex_Unlock_held _ _ _ H1 eq_refl). reflexivity.
Qed.

(** [st_12345] is where [Buffer] with a size of 10 followed by a write of
    "12345" leads, whatever the sink does. *)
Lemma st_12345_reached wres sres :
  exists cl st1,
    Buffer (F := spy wres sres) (foreignSyncer 0) 10 0 st0
      = Ret (bufferWriterSyncer 0%nat (foreignSyncer 0), cl) st1 /\
    Write (F := spy wres sres) 1 (bufferWriterSyncer 0%nat (foreignSyncer 0))
          (bytes_of "12345") st1
      = Ret (5, nil_error) st_12345.
Proof.
  eexists _, _. split; [reflexivity|]. vm_compute. reflexivity.
Qed.

Lemma bufferWriterSyncer_Write_flush_fails_witness :
  Write (F := rejecting) 1 (bufferWriterSyncer 0%nat (foreignSyncer 0))
        (bytes_of "1234567890ABC") st_12345 =
  Ret (0, errorString "disk full")
      (with_object 0%nat
         (bufferObj false false ticker30s
            (mkBufio (buf holds_12345) 5 (errorString "disk full")))
         (mkWorld [call_Write 0 (bytes_of "12345")]
            {[ 0%nat := bufferObj true false ticker30s
                          (mkBufio (buf holds_12345) 5
                                   (errorString "disk full")) ]})).
Proof.
  apply (bufferWriterSyncer_Write_flush_fails _ rejecting 1 0%nat
           (foreignSyncer 0) (bytes_of "1234567890ABC") false ticker30s
           holds_12345
           st_12345 (errorString "disk full")
           (mkWorld [call_Write 0 (bytes_of "12345")]
              {[ 0%nat := bufferObj true false ticker30s
                            (mkBufio (buf holds_12345) 5
                                     (errorString "disk full")) ]})
           false ticker30s
           (mkBufio (buf holds_12345) 5 (errorString "disk full"))).
  - reflexivity.
  - reflexivity.
  - vm_compute. reflexivity.
  - discriminate.
  - reflexivity.
Defined.

(** ** The buffering wrapper: the flush before a write *)

Section flush_first.

Context {S : Type} {F : Foreign S}.

Variables (fuel : nat) (a : addr) (wr : WriteSyncer) (bs : bytes).
Variables (sc : bool) (tk : Ticker) (bw : bufioWriter) (st : World S).

Hypothesis Hobj : heap st !! a = Some (bufferObj false sc tk bw).

(** The buffer holds bytes and [bs] does not fit: the bytes held go to the
    sink first; once the sink has accepted them the buffer is empty and
    [bs] is handed to [bufio.Writer.Write]. *)
Lemma bufferWriterSyncer_Write_flush_then_append m (st1 : World S) :
  err bw = nil_error ->
  n bw <= len (buf bw) ->
  0 < Buffered bw ->
  Available bw < len bs ->
  Write fuel wr (buffered bw) (with_object a (bufferObj true sc tk bw) st)
    = Ret (m, nil_error) st1 ->
  n bw <= m ->
  heap st1 !! a = Some (bufferObj true sc tk bw) ->
  Write fuel (bufferWriterSyncer a wr) bs st =
  defer (mutex_Unlock a) (bufio_Write (Write fuel wr) fuel a bs)
        (with_object a (bufferObj true sc tk (mkBufio (buf bw) 0 nil_error))
                     st1).
Proof.
  intros He Hn Hb Hav Hw Hm H1.
  rewrite (bufferWriterSyncer_Write_unfold _ _ _ _ _ _ _ _ Hobj).
  rewrite (proj2 (must_flush_first_iff bw bs) (conj Hb Hav)).
  unfold Buffered in Hb.
  pose proof (bufio_Flush_accepted (Write fuel wr) a true sc tk bw
                (with_object a (bufferObj true sc tk bw) st) st1 m
                (heap_with_object _ _ _) He ltac:(lia) Hw Hm H1) as Hf.
  unfold defer, bind at 1 3. rewrite Hf. reflexivity.
Qed.

(** The buffer is empty or [bs] fits: no flush, [bs] is handed to
    [bufio.Writer.Write] at once. *)
Lemma bufferWriterSyncer_Write_no_flush :
  Buffered bw <= 0 \/ len bs <= Available bw ->
  Write fuel (bufferWriterSyncer a wr) bs st =
  defer (mutex_Unlock a) (bufio_Write (Write fuel wr) fuel a bs)
        (with_object a (bufferObj true sc tk bw) st).
Proof.
  intros Hc.
  rewrite (bufferWriterSyncer_Write_unfold _ _ _ _ _ _ _ _ Hobj).
  now rewrite (proj2 (must_flush_first_false_iff bw bs) Hc).
Qed.

(** [bs] fits: it is appended to the bytes held and the sink is not
    called. *)
Lemma bufferWriterSyncer_Write_fits :
  err bw = nil_error ->
  0 <= n bw <= len (buf bw) ->
  len bs <= Available bw ->
  exists bw',
    Write fuel (bufferWriterSyncer a wr) bs st =
    Ret (len bs, nil_error) (with_object a (bufferObj false sc tk bw') st) /\
    buffered bw' = buffered bw ++ bs.
Proof.
  intros He Hn Hfit.
  rewrite (bufferWriterSyncer_Write_no_flush (or_intror Hfit)).
  destruct (bufio_Write_fits (Write fuel wr) fuel a true sc tk bw bs
              (with_object a (bufferObj true sc tk bw) st)
              (heap_with_object _ _ _) He Hn Hfit)
    as (bw' & Hw & Hb & _).
  exists bw'. split; [|exact Hb].
  rewrite (defer_Unlock_Ret a sc tk bw' _ _ _ _ Hw (heap_with_object _ _ _)).
  now rewrite !with_object_twice.
Qed.

End flush_first.

(** C2, as stated, fails when an earlier flush has recorded an error.
    [st_rejected] is reached by [Buffer] with a size of 10, a write of
    "12345" and a [Sync] that the sink rejects.  There the buffer holds 5
    bytes and 13 bytes exceed the room left, yet [Write] returns 0 with
    the recorded error and changes nothing: no byte reaches the sink and
    none is appended. *)
Lemma bufferWriterSyncer_Write_flushes_first_counterexample :
  (exists cl st1,
     Buffer (F := rejecting) (foreignSyncer 0) 10 0 st0
       = Ret (bufferWriterSyncer 0%nat (foreignSyncer 0), cl) st1 /\
     Write (F := rejecting) 1 (bufferWriterSyncer 0%nat (foreignSyncer 0))
           (bytes_of "12345") st1
       = Ret (5, nil_error) st_12345 /\
     Sync (F := rejecting) 1 (bufferWriterSyncer 0%nat (foreignSyncer 0))
          st_12345
       = Ret (errorString "disk full") st_rejected) /\
  (exists bw,
     heap st_rejected !! 0%nat = Some (bufferObj false false ticker30s bw) /\
     0 < Buffered bw /\
     Available bw < len (bytes_of "1234567890ABC")) /\
  Write (F := rejecting) 1 (bufferWriterSyncer 0%nat (foreignSyncer 0))
        (bytes_of "1234567890ABC") st_rejected
  = Ret (0, errorString "disk full") st_rejected.
Proof.
  split; [|split].
  - eexists _, _. split; [reflexivity|].
    split; vm_compute; reflexivity.
  - eexists. split; [reflexivity|]. split; reflexivity.
  - vm_compute. reflexivity.
Qed.

(** C2, amended: take a buffering wrapper whose mutex is free.  If the
    buffer holds bytes and [bs] exceeds the room left, [Flush] runs first
    and [bs] is handed to [bufio.Writer.Write] only when it returned
    [nil]: with an error recorded by an earlier flush nothing is written
    or appended and [Write] returns 0 with that error; with none, the
    bytes held are written to the inner sink first, and once the sink has
    accepted them [bs] is handed to [bufio.Writer.Write] on the emptied
    buffer.  If the buffer is empty or [bs] fits, [bs] is handed to
    [bufio.Writer.Write] with no flush before it; when it fits a writer
    in order, it is appended to the bytes held and the sink is not
    called.  With a buffer of 10 bytes, writing "12345" returns 5 and
    nothing reaches the sink; writing "1234567890ABC" next makes the sink
    receive "12345" and then "1234567890ABC", each as one write. *)
Theorem bufferWriterSyncer_Write_flushes_first :
  (forall (S : Type) (F : Foreign S) (fuel : nat) (a : addr)
          (wr : WriteSyncer) (bs : bytes) (sc : bool) (tk : Ticker)
          (bw : bufioWriter) (st : World S),
     heap st !! a = Some (bufferObj false sc tk bw) ->
     (0 < Buffered bw -> Available bw < len bs ->
      Write fuel (bufferWriterSyncer a wr) bs st =
      defer (mutex_Unlock a)
            (err <- bufio_Flush (Write fuel wr) a ;;
             if negb (is_nil err) then ret (0, err)
             else bufio_Write (Write fuel wr) fuel a bs)
            (with_object a (bufferObj true sc tk bw) st)
      /\
      (err bw <> nil_error ->
       Write fuel (bufferWriterSyncer a wr) bs st = Ret (0, err bw) st)
      /\
      (err bw = nil_error -> n bw <= len (buf bw) ->
       forall m st1,
         Write fuel wr (buffered bw)
               (with_object a (bufferObj true sc tk bw) st)
           = Ret (m, nil_error) st1 ->
         n bw <= m ->
         heap st1 !! a = Some (bufferObj true sc tk bw) ->
         Write fuel (bufferWriterSyncer a wr) bs st =
         defer (mutex_Unlock a) (bufio_Write (Write fuel wr) fuel a bs)
               (with_object a
                  (bufferObj true sc tk (mkBufio (buf bw) 0 nil_error))
                  st1)))
     /\
     (Buffered bw <= 0 \/ len bs <= Available bw ->
      Write fuel (bufferWriterSyncer a wr) bs st =
      defer (mutex_Unlock a) (bufio_Write (Write fuel wr) fuel a bs)
            (with_object a (bufferObj true sc tk bw) st))
     /\
     (err bw = nil_error -> 0 <= n bw <= len (buf bw) ->
      len bs <= Available bw ->
      exists bw',
        Write fuel (bufferWriterSyncer a wr) bs st =
        Ret (len bs, nil_error)
            (with_object a (bufferObj false sc tk bw') st) /\
        buffered bw' = buffered bw ++ bs))
  /\
  (exists ws cl st1 st2 st3,
     Buffer (F := accepting) (foreignSyncer 0) 10 0 st0 = Ret (ws, cl) st1 /\
     Write (F := accepting) 1 ws (bytes_of "12345") st1
       = Ret (5, nil_error) st2 /\
     outside st2 = [] /\
     Write (F := accepting) 1 ws (bytes_of "1234567890ABC") st2
       = Ret (13, nil_error) st3 /\
     outside st3 = [call_Write 0 (bytes_of "12345");
                    call_Write 0 (bytes_of "1234567890ABC")] /\
     exists bw3,
       heap st3 !! 0%nat = Some (bufferObj false false ticker30s bw3) /\
       Buffered bw3 = 0).
Proof.
  split.
  - intros * Hobj. split; [|split].
    + intros Hb Hav.
      pose proof (proj2 (must_flush_first_iff bw bs) (conj Hb Hav)) as Hc.
      split; [|split].
      * rewrite (bufferWriterSyncer_Write_unfold _ _ _ _ _ _ _ _ Hobj), Hc.
        reflexivity.
      * intros He.
        apply (bufferWriterSyncer_Write_flush_sticky fuel a wr bs sc tk bw
                 st Hobj Hc He).
      * intros He Hn m st1 Hw Hm H1.
        apply (bufferWriterSyncer_Write_flush_then_append fuel a wr bs sc tk
                 bw st Hobj m st1 He Hn Hb Hav Hw Hm H1).
    + intros Hc. apply bufferWriterSyncer_Write_no_flush; assumption.
    + intros He Hn Hfit. now apply bufferWriterSyncer_Write_fits.
  - eexists _, _, _, _, _.
    split; [reflexivity|].
    split; [vm_compute; reflexivity|].
    split; [reflexivity|].
    split; [vm_compute; reflexivity|].
    split; [reflexivity|].
    eexists. split; reflexivity.
Qed.

Lemma bufferWriterSyncer_Write_flushes_first_witness :
  Write (F := accepting) 1 (bufferWriterSyncer 0%nat (foreignSyncer 0))
        (bytes_of "1234567890ABC") st_12345 =
  defer (mutex_Unlock 0%nat)
        (bufio_Write (Write (F := accepting) 1 (foreignSyncer 0)) 1 0%nat
                     (bytes_of "1234567890ABC"))
        (with_object 0%nat
           (bufferObj true false ticker30s
              (mkBufio (buf holds_12345) 0 nil_error))
           (mkWorld [call_Write 0 (bytes_of "12345")]
              {[ 0%nat := bufferObj true false ticker30s holds_12345 ]})).
Proof.
  destruct bufferWriterSyncer_Write_flushes_first as [H _].
  destruct (H _ accepting 1%nat 0%nat (foreignSyncer 0)
              (bytes_of "1234567890ABC") false ticker30s holds_12345 st_12345
              eq_refl)
    as [HA _].
  destruct (HA eq_refl eq_refl) as (_ & _ & HB).
  apply (HB eq_refl ltac:(vm_compute; discriminate) 5).
  - vm_compute. reflexivity.
  - vm_compute. discriminate.
  - reflexivity.
Defined.

(** ** The buffering wrapper: close *)

Section closing.

Context {S : Type} {F : Foreign S}.

Lemma ticker_Stop_Some a mu sc tk bw (st : World S) :
  heap st !! a = Some (bufferObj mu sc tk bw) ->
  ticker_Stop a st =
  Ret tt (with_object a (bufferObj mu sc (mkTicker (period tk) true) bw) st).
Proof.
  intros H. unfold ticker_Stop, bind. now rewrite (load_Some _ _ _ H).
Qed.

Lemma close_stop_open a mu tk bw (st : World S) :
  heap st !! a = Some (bufferObj mu false tk bw) ->
  close_stop a st = Ret tt (with_object a (bufferObj mu true tk bw) st).
Proof.
  intros H. unfold close_stop, bind. now rewrite (load_Some _ _ _ H).
Qed.

(** Closing the channel a second time panics, before any flush. *)
Lemma bufferWriterSyncer_close_twice a wr_Write mu tk bw (st : World S) :
  heap st !! a = Some (bufferObj mu true tk bw) ->
  bufferWriterSyncer_close a wr_Write st =
  Panic "close of closed channel"
        (with_object a (bufferObj mu true (mkTicker (period tk) true) bw) st).
Proof.
  intros H. unfold bufferWriterSyncer_close, bind at 1.
  rewrite (ticker_Stop_Some _ _ _ _ _ _ H).
  unfold bind at 1, close_stop, bind at 1.
  now rewrite (load_Some _ _ _ (heap_with_object _ _ _)).
Qed.

Lemma bufferWriterSyncer_Sync_unfold fuel a wr sc tk bw (st : World S) :
  heap st !! a = Some (bufferObj false sc tk bw) ->
  Sync fuel (bufferWriterSyncer a wr) st =
  defer (mutex_Unlock a) (bufio_Flush (Write fuel wr) a)
        (with_object a (bufferObj true sc tk bw) st).
Proof.
  intros H. cbn [Sync]. unfold bufferWriterSyncer_Sync, bind at 1.
  now rewrite (mutex_Lock_free _ _ _ H eq_refl).
Qed.

(** The first call of [close]: the ticker is stopped and the channel
    closed, and what remains is [Sync]. *)
Lemma bufferWriterSyncer_close_Sync fuel a wr tk bw (st : World S) :
  heap st !! a = Some (bufferObj false false tk bw) ->
  bufferWriterSyncer_close a (Write fuel wr) st =
  Sync fuel (bufferWriterSyncer a wr)
       (with_object a (bufferObj false true (mkTicker (period tk) true) bw)
                    st).
Proof.
  intros H. unfold bufferWriterSyncer_close, bind at 1.
  rewrite (ticker_Stop_Some _ _ _ _ _ _ H).
  unfold bind at 1.
  rewrite (close_stop_open _ _ _ _ _ (heap_with_object _ _ _)).
  now rewrite with_object_twice.
Qed.

(** The second result of [Buffer] is [close] of the wrapper it returns. *)
Lemma Buffer_close ws bufferSize flushInterval w cl (st st' : World S) :
  Buffer ws bufferSize flushInterval st = Ret (w, cl) st' ->
  exists a,
    w = bufferWriterSyncer a ws /\
    cl = (fun fuel => bufferWriterSyncer_close a (Write fuel ws)) /\
    exists tk bw, heap st' !! a = Some (bufferObj false false tk bw).
Proof.
  unfold Buffer, bind, NewTicker.
  destruct (_ <=? 0); [discriminate|].
  unfold ret, alloc. intros [= <- <- <-].
  eexists. split; [reflexivity|]. split; [reflexivity|].
  eexists _, _. apply lookup_insert_eq.
Qed.

End closing.

(** C8: [close], called on a buffering wrapper whose channel [stop] is
    still open and whose mutex is free, stops the ticker, closes [stop],
    and then is [Sync] in that state: one [bufio.Writer.Flush] under the
    mutex, whose error is the result of [close].  When the writer holds
    bytes, has no sticky error, and the inner sink accepts them, the sink
    receives exactly the bytes held and [close] returns [nil]. *)
Theorem bufferWriterSyncer_close_final_flush :
  forall (S : Type) (F : Foreign S) (fuel : nat) (a : addr)
         (wr : WriteSyncer) (tk : Ticker) (bw : bufioWriter) (st : World S),
    heap st !! a = Some (bufferObj false false tk bw) ->
    let stopped := mkTicker (period tk) true in
    bufferWriterSyncer_close a (Write fuel wr) st =
    Sync fuel (bufferWriterSyncer a wr)
         (with_object a (bufferObj false true stopped bw) st) /\
    (forall e st1 sc1 tk1 bw1,
       bufio_Flush (Write fuel wr) a
                   (with_object a (bufferObj true true stopped bw) st)
         = Ret e st1 ->
       heap st1 !! a = Some (bufferObj true sc1 tk1 bw1) ->
       bufferWriterSyncer_close a (Write fuel wr) st =
       Ret e (with_object a (bufferObj false sc1 tk1 bw1) st1)) /\
    (forall m st1,
       err bw = nil_error ->
       0 < n bw <= len (buf bw) ->
       Write fuel wr (buffered bw)
             (with_object a (bufferObj true true stopped bw) st)
         = Ret (m, nil_error) st1 ->
       n bw <= m ->
       heap st1 !! a = Some (bufferObj true true stopped bw) ->
       bufferWriterSyncer_close a (Write fuel wr) st =
       Ret nil_error
           (with_object a
              (bufferObj false true stopped (mkBufio (buf bw) 0 nil_error))
              st1)).
Proof.
  intros * H stopped.
  pose proof (bufferWriterSyncer_close_Sync fuel a wr tk bw st H) as Hc.
  fold stopped in Hc.
  assert (Hs : bufferWriterSyncer_close a (Write fuel wr) st =
               defer (mutex_Unlock a) (bufio_Flush (Write fuel wr) a)
                 (with_object a (bufferObj true true stopped bw) st)).
  { rewrite Hc.
    rewrite (bufferWriterSyncer_Sync_unfold fuel a wr true stopped bw _
               (heap_with_object _ _ _)).
    now rewrite with_object_twice. }
  split; [exact Hc|]. split.
  - intros e st1 sc1 tk1 bw1 Hf H1. rewrite Hs.
    now apply defer_Unlock_Ret.
  - intros m st1 He Hn Hw Hm H1. rewrite Hs.
    pose proof (bufio_Flush_accepted (Write fuel wr) a true true stopped bw
                  _ st1 m (heap_with_object _ _ _) He Hn Hw Hm H1) as Hf.
    rewrite (defer_Unlock_Ret a true stopped
               (mkBufio (buf bw) 0 nil_error) _ _ _ _ Hf
               (heap_with_object _ _ _)).
    now rewrite with_object_twice.
Qed.

Lemma bufferWriterSyncer_close_final_flush_witness :
  bufferWriterSyncer_close 0%nat
    (Write (F := accepting) 1 (foreignSyncer 0)) st_12345 =
  Ret nil_error
      (with_object 0%nat
         (bufferObj false true (mkTicker 30000000000 true)
            (mkBufio (buf holds_12345) 0 nil_error))
         (mkWorld [call_Write 0 (bytes_of "12345")]
            {[ 0%nat := bufferObj true true (mkTicker 30000000000 true)
                          holds_12345 ]})).
Proof.
  destruct (bufferWriterSyncer_close_final_flush _ accepting 1%nat 0%nat
              (foreignSyncer 0) ticker30s holds_12345 st_12345 eq_refl)
    as (_ & _ & H).
  apply (H 5).
  - reflexivity.
  - vm_compute. split; [reflexivity | discriminate].
  - vm_compute. reflexivity.
  - vm_compute. discriminate.
  - reflexivity.
Defined.

(** * Further properties *)

(** ** Reading off what a call that returned has done *)

Section inversion.

Context {S : Type} {F : Foreign S}.

Lemma bind_Ret_inv {A B} (m : M S A) (k : A -> M S B) st r st' :
  bind m k st = Ret r st' ->
  exists x st1, m st = Ret x st1 /\ k x st1 = Ret r st'.
Proof.
  unfold bind. destruct (m st) as [x st1| | |]; try discriminate.
  intros H. exists x, st1. split; [reflexivity | exact H].
Qed.

Lemma defer_Ret_inv {A} (d : M S unit) (body : M S A) st r st' :
  defer d body st = Ret r st' ->
  exists st1, body st = Ret r st1 /\ d st1 = Ret tt st'.
Proof.
  unfold defer. destruct (body st) as [x st1|msg st1| |]; try discriminate.
  - unfold bind, ret.
    destruct (d st1) as [[] st2| | |] eqn:Ed; try discriminate.
    intros [= <- <-]. exists st1. split; [reflexivity | exact Ed].
  - unfold bind, panic. destruct (d st1); discriminate.
Qed.

Lemma load_Ret_inv a (st : World S) o st' :
  load a st = Ret o st' -> heap st !! a = Some o /\ st' = st.
Proof.
  unfold load. destruct (heap st !! a); [|discriminate].
  intros [= <- <-]. split; reflexivity.
Qed.

Lemma mutex_Lock_Ret_inv a (st : World S) u st' :
  mutex_Lock a st = Ret u st' ->
  exists o, heap st !! a = Some o /\ mutex_of o = false /\
            st' = with_object a (set_mutex true o) st.
Proof.
  intros H. apply bind_Ret_inv in H as (o & st1 & Hl & H).
  apply load_Ret_inv in Hl as [Hl ->].
  exists o. destruct (mutex_of o); [discriminate|].
  injection H as _ <-. auto.
Qed.

Lemma mutex_Unlock_Ret_inv a (st : World S) u st' :
  mutex_Unlock a st = Ret u st' ->
  exists o, heap st !! a = Some o /\ mutex_of o = true /\
            st' = with_object a (set_mutex false o) st.
Proof.
  intros H. apply bind_Ret_inv in H as (o & st1 & Hl & H).
  apply load_Ret_inv in Hl as [Hl ->].
  exists o. destruct (mutex_of o); [|discriminate].
  injection H as _ <-. auto.
Qed.

Lemma slice_or_panic_Ret_inv (p : bytes) i j (st : World S) q st' :
  slice_or_panic p i j st = Ret q st' -> st' = st.
Proof.
  unfold slice_or_panic. destruct (slice p i j); [|discriminate].
  now intros [= _ <-].
Qed.

Lemma is_nil_true (e : error) : is_nil e = true -> e = nil_error.
Proof. destruct e; [reflexivity|discriminate|discriminate]. Qed.

Lemma is_nil_false (e : error) : e <> nil_error -> is_nil e = false.
Proof. destruct e; [contradiction|reflexivity|reflexivity]. Qed.

(** What [Flush] leaves behind when it returns, for a destination that
    leaves the wrapper alone: the error it returned is recorded, and a
    [nil] result means an empty buffer. *)
Lemma bufio_Flush_post (w : bytes -> M S (Z * error)) a mu sc tk bw
    (st st1 : World S) e :
  leaves_object w a ->
  heap st !! a = Some (bufferObj mu sc tk bw) ->
  bufio_Flush w a st = Ret e st1 ->
  exists bw1,
    heap st1 !! a = Some (bufferObj mu sc tk bw1) /\
    err bw1 = e /\
    (e = nil_error -> n bw1 = 0).
Proof.
  intros Hw H. unfold bufio_Flush. unfold bind at 1.
  rewrite (load_bufio_Some _ _ _ _ _ _ H).
  destruct (is_nil (err bw)) eqn:He; cbn [negb].
  2:{ intros [= <- <-]. exists bw. repeat split; [exact H|].
      intros E. rewrite E in He. discriminate. }
  destruct (n bw =? 0) eqn:En.
  { intros [= <- <-]. exists bw. repeat split; [exact H| |].
    - destruct (err bw); [reflexivity|discriminate|discriminate].
    - intros _. now apply Z.eqb_eq. }
  intros Hf. apply bind_Ret_inv in Hf as (p & st2 & Hs & Hf).
  apply slice_or_panic_Ret_inv in Hs as ->.
  unfold bind at 1 in Hf.
  destruct (w p st) as [[m e0] st3| | |] eqn:Ew; try discriminate.
  assert (H3 : heap st3 !! a = Some (bufferObj mu sc tk bw))
    by (now rewrite (Hw _ _ _ _ Ew)).
  unfold bind at 1 in Hf. rewrite (load_bufio_Some _ _ _ _ _ _ H3) in Hf.
  set (e' := if (m <? n bw) && is_nil e0 then ErrShortWrite else e0) in Hf.
  destruct (is_nil e') eqn:He'; cbn [negb] in Hf.
  - unfold bind at 1 in Hf.
    rewrite (store_bufio_Some _ _ _ _ _ _ _ H3) in Hf.
    injection Hf as <- <-.
    eexists. split; [apply heap_with_object|].
    split; [now apply is_nil_true|reflexivity].
  - apply bind_Ret_inv in Hf as (buf' & st4 & Hb & Hf).
    assert (st4 = st3) as ->.
    { destruct ((0 <? m) && (m <? n bw)).
      - apply bind_Ret_inv in Hb as (src & st5 & Hs1 & Hb).
        apply slice_or_panic_Ret_inv in Hs1 as ->.
        apply bind_Ret_inv in Hb as (dst & st6 & Hs2 & Hb).
        apply slice_or_panic_Ret_inv in Hs2 as ->.
        now injection Hb as _ <-.
      - now injection Hb as _ <-. }
    unfold bind at 1 in Hf.
    rewrite (store_bufio_Some _ _ _ _ _ _ _ H3) in Hf.
    injection Hf as <- <-.
    eexists. split; [apply heap_with_object|].
    split; [reflexivity|]. intros E. rewrite E in He'. discriminate.
Qed.

End inversion.

(** ** The buffering wrapper after a flush *)

Section settled.

Context {S : Type} {F : Foreign S}.

(** A foreign sink has no access to the heap. *)
Lemma foreignSyncer_leaves_object fuel id a :
  leaves_object (Write (S := S) fuel (foreignSyncer id)) a.
Proof.
  intros p st r st'. cbn [Write]. unfold foreign.
  destruct (syncer_Write id p (outside st)) as [r' s'].
  now intros [= _ <-].
Qed.

Lemma bufio_Flush_empty (w : bytes -> M S (Z * error)) a mu sc tk bw
    (st : World S) :
  heap st !! a = Some (bufferObj mu sc tk bw) ->
  err bw = nil_error -> n bw = 0 ->
  bufio_Flush w a st = Ret nil_error st.
Proof.
  intros H He Hn. unfold bufio_Flush, bind.
  rewrite (load_bufio_Some _ _ _ _ _ _ H), He, Hn. reflexivity.
Qed.

Lemma bufio_Write_sticky (w : bytes -> M S (Z * error)) fuel a mu sc tk bw
    bs (st : World S) :
  heap st !! a = Some (bufferObj mu sc tk bw) ->
  err bw <> nil_error ->
  bufio_Write w fuel a bs st = Ret (0, err bw) st.
Proof.
  intros H He. apply is_nil_false in He. unfold bufio_Write.
  destruct fuel; cbn [bufio_Write_loop]; unfold bind;
    rewrite (load_bufio_Some _ _ _ _ _ _ H), He, andb_false_r; reflexivity.
Qed.

(** With a sticky error [Write] returns it with a count of 0, and [Sync]
    returns it; neither changes anything. *)
Lemma bufferWriterSyncer_Write_sticky fuel a wr bs sc tk bw (st : World S) :
  heap st !! a = Some (bufferObj false sc tk bw) ->
  err bw <> nil_error ->
  Write fuel (bufferWriterSyncer a wr) bs st = Ret (0, err bw) st.
Proof.
  intros H He. destruct (must_flush_first bw bs) eqn:Ec.
  - apply (bufferWriterSyncer_Write_flush_sticky fuel a wr bs sc tk bw st
             H Ec He).
  - rewrite (bufferWriterSyncer_Write_unfold _ _ _ _ _ _ _ _ H), Ec.
    rewrite (defer_Unlock_Ret a sc tk bw _ _ _ _
               (bufio_Write_sticky _ fuel a true sc tk bw bs _
                  (heap_with_object _ _ _) He)
               (heap_with_object _ _ _)).
    now rewrite with_object_twice, (with_object_same _ _ _ H).
Qed.

Lemma bufferWriterSyncer_Sync_sticky fuel a wr sc tk bw (st : World S) :
  heap st !! a = Some (bufferObj false sc tk bw) ->
  err bw <> nil_error ->
  Sync fuel (bufferWriterSyncer a wr) st = Ret (err bw) st.
Proof.
  intros H He.
  rewrite (bufferWriterSyncer_Sync_unfold _ _ _ _ _ _ _ H).
  rewrite (defer_Unlock_Ret a sc tk bw _ _ _ _
             (bufio_Flush_sticky _ a true sc tk bw _
                (heap_with_object _ _ _) He)
             (heap_with_object _ _ _)).
  now rewrite with_object_twice, (with_object_same _ _ _ H).
Qed.

Lemma bufferWriterSyncer_Sync_empty fuel a wr sc tk bw (st : World S) :
  heap st !! a = Some (bufferObj false sc tk bw) ->
  err bw = nil_error -> n bw = 0 ->
  Sync fuel (bufferWriterSyncer a wr) st = Ret nil_error st.
Proof.
  intros H He Hn.
  rewrite (bufferWriterSyncer_Sync_unfold _ _ _ _ _ _ _ H).
  rewrite (defer_Unlock_Ret a sc tk bw _ _ _ _
             (bufio_Flush_empty _ a true sc tk bw _
                (heap_with_object _ _ _) He Hn)
             (heap_with_object _ _ _)).
  now rewrite with_object_twice, (with_object_same _ _ _ H).
Qed.

(** The wrapper after a [Sync] that returned: its mutex is free again,
    the error returned is recorded, and after [nil] the buffer is empty.
    The channel and the ticker are as before. *)
Lemma bufferWriterSyncer_Sync_post fuel a wr (st st1 : World S) e :
  leaves_object (Write fuel wr) a ->
  Sync fuel (bufferWriterSyncer a wr) st = Ret e st1 ->
  exists sc tk bw bw1,
    heap st !! a = Some (bufferObj false sc tk bw) /\
    heap st1 !! a = Some (bufferObj false sc tk bw1) /\
    err bw1 = e /\
    (e = nil_error -> n bw1 = 0).
Proof.
  intros Hw H. cbn [Sync] in H. unfold bufferWriterSyncer_Sync in H.
  apply bind_Ret_inv in H as ([] & st2 & Hl & H).
  apply mutex_Lock_Ret_inv in Hl as (o & Ho & Hm & ->).
  apply defer_Ret_inv in H as (st3 & Hf & Hu).
  destruct o as [mu|mu sc tk bw]; simpl in Hm; subst mu.
  { unfold bufio_Flush, bind, load_bufio, bind in Hf.
    rewrite (load_Some _ _ _ (heap_with_object _ _ _)) in Hf.
    discriminate. }
  cbn [set_mutex] in Hf.
  destruct (bufio_Flush_post _ a true sc tk bw _ _ e Hw
              (heap_with_object _ _ _) Hf) as (bw1 & H3 & He & Hn).
  apply mutex_Unlock_Ret_inv in Hu as (o' & Ho' & _ & ->).
  rewrite H3 in Ho'. injection Ho' as <-.
  exists sc, tk, bw, bw1. split; [exact Ho|].
  split; [apply heap_with_object|]. split; assumption.
Qed.

End settled.

(** X1: a [Sync] of the buffering wrapper that returned leaves it settled:
    a second [Sync] returns the same result and changes nothing, so the
    sink is not written again. *)
Theorem bufferWriterSyncer_Sync_twice :
  forall (S : Type) (F : Foreign S) (fuel fuel' : nat) (a : addr)
         (wr : WriteSyncer) (st st1 : World S) (e : error),
    leaves_object (Write fuel wr) a ->
    Sync fuel (bufferWriterSyncer a wr) st = Ret e st1 ->
    Sync fuel' (bufferWriterSyncer a wr) st1 = Ret e st1.
Proof.
  intros * Hw H.
  destruct (bufferWriterSyncer_Sync_post fuel a wr st st1 e Hw H)
    as (sc & tk & bw & bw1 & _ & H1 & He & Hn).
  destruct (is_nil e) eqn:E.
  - apply is_nil_true in E. rewrite E in He, Hn |- *.
    apply (bufferWriterSyncer_Sync_empty _ _ _ _ _ _ _ H1 He (Hn eq_refl)).
  - rewrite <- He. apply (bufferWriterSyncer_Sync_sticky _ _ _ _ _ _ _ H1).
    intros E'. rewrite <- He, E' in E. discriminate.
Qed.

(** X2: once [Sync] has returned an error the buffering wrapper accepts
    nothing more: every later [Write] returns a count of 0 with that
    error, whatever the bytes, and neither the buffer nor the sink is
    touched. *)
Theorem bufferWriterSyncer_error_is_permanent :
  forall (S : Type) (F : Foreign S) (fuel fuel' : nat) (a : addr)
         (wr : WriteSyncer) (bs : bytes) (st st1 : World S) (e : error),
    leaves_object (Write fuel wr) a ->
    Sync fuel (bufferWriterSyncer a wr) st = Ret e st1 ->
    e <> nil_error ->
    Write fuel' (bufferWriterSyncer a wr) bs st1 = Ret (0, e) st1.
Proof.
  intros * Hw H Hne.
  destruct (bufferWriterSyncer_Sync_post fuel a wr st st1 e Hw H)
    as (sc & tk & bw & bw1 & _ & H1 & He & _).
  rewrite <- He. apply (bufferWriterSyncer_Write_sticky _ _ _ _ _ _ _ _ H1).
  now rewrite He.
Qed.

(** ** Oversized writes and framing *)

Section framing.

Context {S : Type} {F : Foreign S}.

Lemma slice_end (p : bytes) : slice p (len p) (len p) = Some [].
Proof.
  unfold slice.
  replace ((0 <=? len p) && (len p <=? len p) && (len p <=? len p))
    with true by (symmetry; rewrite !andb_true_iff, !Z.leb_le;
                  unfold len; lia).
  now rewrite Z.sub_diag.
Qed.

(** An empty buffer and bytes that exceed its whole array: the bytes go to
    the destination as they are, in one write, and the buffer stays
    empty. *)
Lemma bufio_Write_direct (w : bytes -> M S (Z * error)) fuel a mu sc tk bw
    bs (st st1 : World S) :
  heap st !! a = Some (bufferObj mu sc tk bw) ->
  err bw = nil_error ->
  n bw = 0 ->
  len (buf bw) < len bs ->
  w bs st = Ret (len bs, nil_error) st1 ->
  heap st1 !! a = Some (bufferObj mu sc tk bw) ->
  exists bw',
    bufio_Write w (Datatypes.S fuel) a bs st =
    Ret (len bs, nil_error) (with_object a (bufferObj mu sc tk bw') st1) /\
    n bw' = 0 /\ err bw' = nil_error /\ len (buf bw') = len (buf bw).
Proof.
  intros H He Hn Hlen Hw H1.
  destruct bw as [bf nn er]; cbn [buf n err] in *. subst nn er.
  unfold bufio_Write. cbn [bufio_Write_loop]. unfold bind at 1.
  rewrite (load_bufio_Some _ _ _ _ _ _ H).
  unfold Available, Buffered; cbn [buf n err is_nil].
  replace (len bs >? len bf - 0) with true
    by (symmetry; rewrite Z.gtb_ltb; apply Z.ltb_lt; lia).
  cbn [andb Z.eqb]. unfold bind at 1. unfold bind at 1. rewrite Hw.
  unfold bind at 1. rewrite (load_bufio_Some _ _ _ _ _ _ H1).
  unfold bind at 1. rewrite (store_bufio_Some _ _ _ _ _ _ _ H1).
  cbn [buf n]. unfold ret at 1.
  unfold bind at 1, slice_or_panic. rewrite slice_end. unfold ret at 1.
  set (st2 := with_object a _ st1).
  assert (H2 : heap st2 !! a
               = Some (bufferObj mu sc tk (mkBufio bf 0 nil_error)))
    by apply heap_with_object.
  assert (Hloop : forall k,
            bufio_Write_loop w fuel a [] k st2 =
            Ret (k + 0, nil_error)
                (with_object a
                   (bufferObj mu sc tk
                      (mkBufio (fst (copy_at bf 0 [])) (0 + 0) nil_error))
                   st2)).
  { intros k.
    destruct fuel; cbn [bufio_Write_loop]; unfold bind at 1;
      rewrite (load_bufio_Some _ _ _ _ _ _ H2);
      unfold Available; cbn [buf n err is_nil];
      replace (len [] >? len bf - 0) with false
        by (symmetry; rewrite Z.gtb_ltb; apply Z.ltb_ge;
            unfold len; cbn [length]; lia);
      cbn [andb negb]; unfold bind at 1, bufio_fill; unfold bind at 1;
      rewrite (load_bufio_Some _ _ _ _ _ _ H2);
      unfold bind at 1, slice_or_panic; cbn [buf n err];
      rewrite slice_suffix by (unfold len; lia);
      unfold ret at 1; unfold copy_at; cbn [fst];
      replace (Z.min (len bf - 0) (len [])) with 0
        by (unfold len; cbn [length]; lia);
      unfold bind at 1;
      rewrite (store_bufio_Some _ _ _ _ _ _ _ H2); reflexivity. }
  rewrite Hloop. subst st2. rewrite with_object_twice.
  eexists. split; [rewrite Z.add_0_r; reflexivity|].
  cbn [n err buf]. split; [reflexivity|]. split; [reflexivity|].
  unfold copy_at; cbn [fst].
  replace (Z.min (len bf - 0) (len [])) with 0
    by (unfold len; cbn [length]; lia).
  cbn. rewrite drop_0. reflexivity.
Qed.

End framing.

Lemma len_buffered (bw : bufioWriter) :
  0 <= n bw <= len (buf bw) -> len (buffered bw) = n bw.
Proof.
  intros H. unfold buffered, len in *. rewrite length_take. lia.
Qed.

(** X3: framing.  The buffer holds bytes and [bs] exceeds the room left;
    the sink accepts what it is given.  Then the sink receives the bytes
    held as one write, and after it either [bs] as one write of its own
    (when [bs] exceeds the whole buffer) or nothing yet ([bs] is then
    what the buffer holds).  No write mixes the bytes held with [bs], and
    [Write] returns [len(bs)]. *)
Theorem bufferWriterSyncer_Write_framing :
  forall sres (fuel : nat) (a : addr) (id : nat) (bs : bytes)
         (sc : bool) (tk : Ticker) (bw : bufioWriter)
         (log : list call) (h : gmap addr object),
    h !! a = Some (bufferObj false sc tk bw) ->
    err bw = nil_error ->
    0 < n bw <= len (buf bw) ->
    Available bw < len bs ->
    exists bw',
      Write (F := spy (fun _ p => (len p, nil_error)) sres)
            (Datatypes.S fuel)
            (bufferWriterSyncer a (foreignSyncer id)) bs (mkWorld log h)
      = Ret (len bs, nil_error)
            (mkWorld
               (log ++ call_Write id (buffered bw)
                    :: (if len bs >? len (buf bw)
                        then [call_Write id bs] else []))
               (<[a := bufferObj false sc tk bw']> h)) /\
      buffered bw' = (if len bs >? len (buf bw) then [] else bs).
Proof.
  intros sres fuel a id bs sc tk bw log h H He Hn Hav.
  set (F := spy (fun _ p => (len p, nil_error)) sres).
  set (st1 := mkWorld (log ++ [call_Write id (buffered bw)])
                      (<[a := bufferObj true sc tk bw]> h)).
  rewrite (bufferWriterSyncer_Write_flush_then_append (F := F)
             (Datatypes.S fuel) a (foreignSyncer id) bs sc tk bw
             (mkWorld log h) H (len (buffered bw)) st1 He
             ltac:(lia) ltac:(unfold Buffered; lia) Hav eq_refl
             ltac:(rewrite len_buffered; lia)
             ltac:(apply lookup_insert_eq)).
  set (bw0 := mkBufio (buf bw) 0 nil_error).
  set (st2 := with_object a (bufferObj true sc tk bw0) st1).
  assert (H2 : heap st2 !! a = Some (bufferObj true sc tk bw0))
    by apply heap_with_object.
  destruct (len bs >? len (buf bw)) eqn:Ebig.
  - rewrite Z.gtb_ltb in Ebig. apply Z.ltb_lt in Ebig.
    set (st3 := mkWorld (outside st2 ++ [call_Write id bs]) (heap st2)).
    destruct (bufio_Write_direct (Write (F := F) (Datatypes.S fuel)
                                        (foreignSyncer id))
                fuel a true sc tk bw0 bs st2 st3 H2 eq_refl eq_refl Ebig
                eq_refl H2)
      as (bw' & Hw & Hn' & _).
    exists bw'. split.
    + rewrite (defer_Unlock_Ret a sc tk bw' _ _ _ _ Hw
                 (heap_with_object _ _ _)).
      rewrite with_object_twice. unfold with_object, set_heap.
      cbn [outside heap st3 st2 st1 with_object set_heap].
      rewrite <- app_assoc, !insert_insert_eq. reflexivity.
    + unfold buffered. now rewrite Hn'.
  - rewrite Z.gtb_ltb in Ebig. apply Z.ltb_ge in Ebig.
    destruct (bufio_Write_fits (Write (F := F) (Datatypes.S fuel)
                                      (foreignSyncer id))
                (Datatypes.S fuel) a true sc tk bw0 bs st2 H2 eq_refl)
      as (bw' & Hw & Hb & _).
    { cbn [n buf bw0]. unfold len. lia. }
    { unfold Available. cbn [n buf bw0]. lia. }
    exists bw'. split.
    + rewrite (defer_Unlock_Ret a sc tk bw' _ _ _ _ Hw
                 (heap_with_object _ _ _)).
      rewrite with_object_twice. unfold with_object, set_heap.
      cbn [outside heap st2 st1 with_object set_heap].
      rewrite !insert_insert_eq. reflexivity.
    + rewrite Hb. reflexivity.
Qed.

(** ** What a flush hands to the sink *)

Section flush_total.

Context {S : Type} {F : Foreign S}.

Lemma slice_in_range (p : bytes) (i j : Z) :
  0 <= i <= j -> j <= len p -> exists q, slice p i j = Some q.
Proof.
  intros H1 H2. unfold slice.
  replace ((0 <=? i) && (i <=? j) && (j <=? len p)) with true
    by (symmetry; rewrite !andb_true_iff, !Z.leb_le; lia).
  eauto.
Qed.

(** A writer in order never panics in [Flush], whatever count and error
    the destination returns; the result is [nil] exactly when the
    destination returned [nil] and a count that covers the bytes held. *)
Lemma bufio_Flush_returns (w : bytes -> M S (Z * error)) a mu sc tk bw
    (st st1 : World S) m e0 :
  heap st !! a = Some (bufferObj mu sc tk bw) ->
  err bw = nil_error ->
  0 < n bw <= len (buf bw) ->
  w (buffered bw) st = Ret (m, e0) st1 ->
  heap st1 !! a = Some (bufferObj mu sc tk bw) ->
  exists e bw1,
    bufio_Flush w a st =
    Ret e (with_object a (bufferObj mu sc tk bw1) st1) /\
    (e = nil_error <-> e0 = nil_error /\ n bw <= m).
Proof.
  intros H He Hn Hw H1. unfold bufio_Flush, bind at 1.
  rewrite (load_bufio_Some _ _ _ _ _ _ H), He. cbn [is_nil negb].
  replace (n bw =? 0) with false by (symmetry; apply Z.eqb_neq; lia).
  unfold bind at 1, slice_or_panic. rewrite slice_prefix by lia.
  unfold ret at 1. fold (buffered bw). unfold bind at 1. rewrite Hw.
  unfold bind at 1. rewrite (load_bufio_Some _ _ _ _ _ _ H1).
  set (e' := if (m <? n bw) && is_nil e0 then ErrShortWrite else e0).
  assert (He' : e' = nil_error <-> e0 = nil_error /\ n bw <= m).
  { subst e'. destruct (m <? n bw) eqn:Em.
    - apply Z.ltb_lt in Em. destruct e0; cbn [andb is_nil];
        (split; [discriminate | intros [? ?]; try discriminate; lia]).
    - apply Z.ltb_ge in Em. cbn [andb]. tauto. }
  destruct (is_nil e') eqn:En; cbn [negb].
  - unfold bind at 1. rewrite (store_bufio_Some _ _ _ _ _ _ _ H1).
    eexists _, _. split; [reflexivity|].
    apply is_nil_true in En. rewrite <- He'. tauto.
  - assert (Hne : e' <> nil_error)
      by (intros E; rewrite E in En; discriminate).
    destruct ((0 <? m) && (m <? n bw)) eqn:Emid.
    + apply andb_true_iff in Emid as [E1 E2].
      apply Z.ltb_lt in E1, E2.
      destruct (slice_in_range (buf bw) m (n bw)) as [src Hs1]; try lia.
      destruct (slice_in_range (buf bw) 0 (n bw - m)) as [dst Hs2]; try lia.
      unfold bind at 1. unfold bind at 1. rewrite Hs1. unfold ret at 1.
      unfold bind at 1. rewrite Hs2. unfold ret at 1 2.
      unfold bind at 1. rewrite (store_bufio_Some _ _ _ _ _ _ _ H1).
      eexists _, _. split; [reflexivity|]. rewrite <- He'. tauto.
    + unfold bind at 1. unfold ret at 1.
      unfold bind at 1. rewrite (store_bufio_Some _ _ _ _ _ _ _ H1).
      eexists _, _. split; [reflexivity|]. rewrite <- He'. tauto.
Qed.

End flush_total.

(** [Sync] of a buffering wrapper over a foreign sink, whatever the sink
    returns: the log grows by one [Write] of the bytes held, or not at
    all. *)
Lemma bufferWriterSyncer_Sync_spy :
  forall wres sres (fuel : nat) (a : addr) (id : nat)
         (sc : bool) (tk : Ticker) (bw : bufioWriter)
         (log : list call) (h : gmap addr object),
    h !! a = Some (bufferObj false sc tk bw) ->
    0 <= n bw <= len (buf bw) ->
    exists e bw1,
      Sync (F := spy wres sres) fuel
           (bufferWriterSyncer a (foreignSyncer id)) (mkWorld log h)
      = Ret e
            (mkWorld
               (log ++ (if is_nil (err bw) && (0 <? n bw)
                        then [call_Write id (buffered bw)] else []))
               (<[a := bufferObj false sc tk bw1]> h)).
Proof.
  intros wres sres fuel a id sc tk bw log h H Hn.
  set (F := spy wres sres). set (st := mkWorld log h).
  assert (Hsame : mkWorld (log ++ []) (<[a := bufferObj false sc tk bw]> h)
                  = st).
  { subst st. now rewrite app_nil_r, insert_id. }
  destruct (is_nil (err bw)) eqn:He; cbn [andb].
  2:{ exists (err bw), bw. rewrite Hsame.
      apply (bufferWriterSyncer_Sync_sticky (F := F) fuel a _ sc tk bw st H).
      intros E. rewrite E in He. discriminate. }
  apply is_nil_true in He.
  destruct (0 <? n bw) eqn:Epos.
  2:{ exists nil_error, bw. rewrite Hsame.
      apply (bufferWriterSyncer_Sync_empty (F := F) fuel a _ sc tk bw st H He).
      apply Z.ltb_ge in Epos. lia. }
  apply Z.ltb_lt in Epos.
  rewrite (bufferWriterSyncer_Sync_unfold (F := F) fuel a _ sc tk bw st H).
  set (st1 := mkWorld (log ++ [call_Write id (buffered bw)])
                      (<[a := bufferObj true sc tk bw]> h)).
  destruct (bufio_Flush_returns (Write (F := F) fuel (foreignSyncer id))
              a true sc tk bw
              (with_object a (bufferObj true sc tk bw) st) st1
              (fst (wres id (buffered bw))) (snd (wres id (buffered bw)))
              (heap_with_object _ _ _) He ltac:(lia))
    as (e & bw1 & Hf & _).
  { cbn [Write]. unfold foreign. cbn.
    now destruct (wres id (buffered bw)). }
  { apply lookup_insert_eq. }
  exists e, bw1.
  rewrite (defer_Unlock_Ret a sc tk bw1 _ _ _ _ Hf (heap_with_object _ _ _)).
  rewrite with_object_twice. unfold with_object, set_heap.
  cbn [outside heap st1]. now rewrite insert_insert_eq.
Qed.

(** X4: [Sync] and [close] of a buffering wrapper over a foreign sink,
    whatever the sink returns: when the buffer holds bytes and no error
    is recorded the sink receives them as one [Write], otherwise it
    receives nothing; the sink's own [Sync] is never called. *)
Theorem bufferWriterSyncer_Sync_never_syncs_sink :
  forall wres sres (fuel : nat) (a : addr) (id : nat)
         (tk : Ticker) (bw : bufioWriter)
         (log : list call) (h : gmap addr object),
    h !! a = Some (bufferObj false false tk bw) ->
    0 <= n bw <= len (buf bw) ->
    let flushed := if is_nil (err bw) && (0 <? n bw)
                   then [call_Write id (buffered bw)] else [] in
    (exists e bw1,
       Sync (F := spy wres sres) fuel
            (bufferWriterSyncer a (foreignSyncer id)) (mkWorld log h)
       = Ret e (mkWorld (log ++ flushed)
                        (<[a := bufferObj false false tk bw1]> h))) /\
    (exists e bw1,
       bufferWriterSyncer_close a
         (Write (F := spy wres sres) fuel (foreignSyncer id))
         (mkWorld log h)
       = Ret e (mkWorld (log ++ flushed)
                        (<[a := bufferObj false true
                                   (mkTicker (period tk) true) bw1]> h))).
Proof.
  intros wres sres fuel a id tk bw log h H Hn flushed. split.
  - apply (bufferWriterSyncer_Sync_spy wres sres fuel a id false tk bw
             log h H Hn).
  - rewrite (bufferWriterSyncer_close_Sync (F := spy wres sres) fuel a
               (foreignSyncer id) tk bw (mkWorld log h) H).
    destruct (bufferWriterSyncer_Sync_spy wres sres fuel a id true
                (mkTicker (period tk) true) bw log
                (<[a := bufferObj false true (mkTicker (period tk) true) bw]>
                   h)
                ltac:(apply lookup_insert_eq) Hn) as (e & bw1 & Hs).
    exists e, bw1. unfold with_object, set_heap; cbn [outside heap].
    rewrite Hs. now rewrite insert_insert_eq.
Qed.

(** ** Batching *)

Section batching.

Context {S : Type} {F : Foreign S}.

Lemma len_app (p q : bytes) : len (p ++ q) = len p + len q.
Proof. unfold len. rewrite length_app. lia. Qed.

Lemma len_nonneg (p : bytes) : 0 <= len p.
Proof. unfold len. lia. Qed.

(** [bufferWriterSyncer_Write_fits] with all that it leaves in the
    writer. *)
Lemma bufferWriterSyncer_Write_fits_writer fuel a wr bs sc tk bw
    (st : World S) :
  heap st !! a = Some (bufferObj false sc tk bw) ->
  err bw = nil_error ->
  0 <= n bw <= len (buf bw) ->
  len bs <= Available bw ->
  exists bw',
    Write fuel (bufferWriterSyncer a wr) bs st =
    Ret (len bs, nil_error) (with_object a (bufferObj false sc tk bw') st) /\
    buffered bw' = buffered bw ++ bs /\
    len (buf bw') = len (buf bw) /\
    n bw' = n bw + len bs /\
    err bw' = nil_error.
Proof.
  intros H He Hn Hfit.
  rewrite (bufferWriterSyncer_Write_no_flush fuel a wr bs sc tk bw st H
             (or_intror Hfit)).
  destruct (bufio_Write_fits (Write fuel wr) fuel a true sc tk bw bs
              (with_object a (bufferObj true sc tk bw) st)
              (heap_with_object _ _ _) He Hn Hfit)
    as (bw' & Hw & Hrest).
  exists bw'. split; [|exact Hrest].
  rewrite (defer_Unlock_Ret a sc tk bw' _ _ _ _ Hw (heap_with_object _ _ _)).
  now rewrite !with_object_twice.
Qed.

Lemma each_Write_fits fuel a wr (ps : list bytes) sc tk bw (st : World S) :
  heap st !! a = Some (bufferObj false sc tk bw) ->
  err bw = nil_error ->
  0 <= n bw <= len (buf bw) ->
  len (concat ps) <= Available bw ->
  exists bw',
    each (Write fuel (bufferWriterSyncer a wr)) ps st =
    Ret (map (fun p => (len p, nil_error)) ps)
        (with_object a (bufferObj false sc tk bw') st) /\
    buffered bw' = buffered bw ++ concat ps /\
    len (buf bw') = len (buf bw) /\
    n bw' = n bw + len (concat ps) /\
    err bw' = nil_error.
Proof.
  revert bw st. induction ps as [|p ps IH]; intros bw st H He Hn Hfit.
  - exists bw. cbn [each concat map]. unfold ret.
    rewrite (with_object_same _ _ _ H), app_nil_r.
    repeat split; try assumption. unfold len; cbn [length]; lia.
  - cbn [concat] in Hfit. rewrite len_app in Hfit.
    pose proof (len_nonneg p). pose proof (len_nonneg (concat ps)).
    unfold Available in Hfit.
    destruct (bufferWriterSyncer_Write_fits_writer fuel a wr p sc tk bw st
                H He Hn) as (bw1 & Hw & Hb1 & Hl1 & Hn1 & He1).
    { unfold Available. lia. }
    destruct (IH bw1 (with_object a (bufferObj false sc tk bw1) st)
                (heap_with_object _ _ _) He1)
      as (bw' & Hr & Hb & Hl & Hn' & He').
    { lia. }
    { unfold Available. lia. }
    exists bw'. split; [|split; [|split; [|split]]].
    + cbn [each map]. unfold bind at 1. rewrite Hw.
      unfold bind at 1. rewrite Hr. unfold ret.
      now rewrite with_object_twice.
    + rewrite Hb, Hb1. cbn [concat]. now rewrite <- app_assoc.
    + lia.
    + cbn [concat]. rewrite len_app. lia.
    + assumption.
Qed.

(** With an error recorded every payload is refused and nothing
    changes. *)
Lemma each_Write_sticky fuel a wr (ps : list bytes) sc tk bw (st : World S) :
  heap st !! a = Some (bufferObj false sc tk bw) ->
  err bw <> nil_error ->
  each (Write fuel (bufferWriterSyncer a wr)) ps st =
  Ret (map (fun _ => (0, err bw)) ps) st.
Proof.
  intros H He. induction ps as [|p ps IH]; [reflexivity|].
  cbn [each map]. unfold bind at 1.
  rewrite (bufferWriterSyncer_Write_sticky fuel a wr p sc tk bw st H He).
  unfold bind at 1. rewrite IH. reflexivity.
Qed.

End batching.

(** X5: writes are batched while no error is recorded.  For a writer in
    order (no recorded error, fill count within the array) and payloads
    that together fit in the room left, each [Write] returns the length of
    its payload, the sink is not called, and the buffer ends up holding
    what it held followed by the payloads in the order written.  With an
    error recorded, every [Write] returns 0 with that error and nothing
    changes. *)
Theorem bufferWriterSyncer_Write_batches :
  forall (S : Type) (F : Foreign S) (fuel : nat) (a : addr)
         (wr : WriteSyncer) (ps : list bytes) (sc : bool) (tk : Ticker)
         (bw : bufioWriter) (st : World S),
    heap st !! a = Some (bufferObj false sc tk bw) ->
    (err bw = nil_error ->
     0 <= n bw <= len (buf bw) ->
     len (concat ps) <= Available bw ->
     exists bw',
       each (Write fuel (bufferWriterSyncer a wr)) ps st =
       Ret (map (fun p => (len p, nil_error)) ps)
           (with_object a (bufferObj false sc tk bw') st) /\
       buffered bw' = buffered bw ++ concat ps) /\
    (err bw <> nil_error ->
     each (Write fuel (bufferWriterSyncer a wr)) ps st =
     Ret (map (fun _ => (0, err bw)) ps) st).
Proof.
  intros * H. split.
  - intros He Hn Hfit.
    destruct (each_Write_fits fuel a wr ps sc tk bw st H He Hn Hfit)
      as (bw' & Hr & Hb & _).
    exists bw'. split; assumption.
  - intros He. apply (each_Write_sticky fuel a wr ps sc tk bw st H He).
Qed.

(** X6: what is written is what is flushed, while no error is recorded.
    For a writer in order, payloads that together fit in the room left,
    followed by [Sync], reach a foreign sink as one [Write] of the bytes
    held before followed by the payloads in order; with nothing to flush
    the sink receives nothing.  With an error recorded, the payloads are
    refused with that error, [Sync] returns it, and the sink receives
    nothing. *)
Theorem bufferWriterSyncer_Write_then_Sync :
  forall wres sres (fuel : nat) (a : addr) (id : nat) (ps : list bytes)
         (sc : bool) (tk : Ticker) (bw : bufioWriter)
         (log : list call) (h : gmap addr object),
    h !! a = Some (bufferObj false sc tk bw) ->
    (err bw = nil_error ->
     0 <= n bw <= len (buf bw) ->
     len (concat ps) <= Available bw ->
     exists st1 e bw2,
       each (Write (F := spy wres sres) fuel
                   (bufferWriterSyncer a (foreignSyncer id))) ps
            (mkWorld log h)
       = Ret (map (fun p => (len p, nil_error)) ps) st1 /\
       Sync (F := spy wres sres) fuel
            (bufferWriterSyncer a (foreignSyncer id)) st1
       = Ret e
             (mkWorld
                (log ++ (if 0 <? n bw + len (concat ps)
                         then [call_Write id (buffered bw ++ concat ps)]
                         else []))
                (<[a := bufferObj false sc tk bw2]> h))) /\
    (err bw <> nil_error ->
     each (Write (F := spy wres sres) fuel
                 (bufferWriterSyncer a (foreignSyncer id))) ps
          (mkWorld log h)
     = Ret (map (fun _ => (0, err bw)) ps) (mkWorld log h) /\
     Sync (F := spy wres sres) fuel
          (bufferWriterSyncer a (foreignSyncer id)) (mkWorld log h)
     = Ret (err bw) (mkWorld log h)).
Proof.
  intros wres sres fuel a id ps sc tk bw log h H. split.
  - intros He Hn Hfit.
    destruct (each_Write_fits (F := spy wres sres) fuel a (foreignSyncer id)
                ps sc tk bw (mkWorld log h) H He Hn Hfit)
      as (bw1 & Hr & Hb & Hl & Hn1 & He1).
    pose proof (len_nonneg (concat ps)). unfold Available in Hfit.
    destruct (bufferWriterSyncer_Sync_spy wres sres fuel a id
                sc tk bw1 log (<[a := bufferObj false sc tk bw1]> h))
      as (e & bw2 & Hs).
    { apply lookup_insert_eq. }
    { lia. }
    eexists _, e, bw2. split; [exact Hr|].
    unfold with_object, set_heap; cbn [outside heap].
    rewrite Hs, He1, Hn1, Hb. cbn [is_nil andb].
    now rewrite insert_insert_eq.
  - intros He. split.
    + apply (each_Write_sticky (F := spy wres sres) fuel a (foreignSyncer id)
               ps sc tk bw (mkWorld log h) H He).
    + apply (bufferWriterSyncer_Sync_sticky (F := spy wres sres) fuel a
               (foreignSyncer id) sc tk bw (mkWorld log h) H He).
Qed.

(** ** Mutexes *)

Section mutexes.

Context {S : Type} {F : Foreign S}.

Lemma mutex_of_set_mutex held o : mutex_of (set_mutex held o) = held.
Proof. now destruct o. Qed.

(** [Unlock] returns or panics, and either way the mutex is not held
    afterwards. *)
Lemma mutex_Unlock_post a (st : World S) :
  match mutex_Unlock a st with
  | Ret _ s | Panic _ s =>
      forall o, heap s !! a = Some o -> mutex_of o = false
  | Blocked | OutOfFuel => False
  end.
Proof.
  unfold mutex_Unlock, bind, load.
  destruct (heap st !! a) as [o|] eqn:H.
  - destruct (mutex_of o) eqn:Hm.
    + unfold store. intros o' Ho'.
      pose proof (heap_with_object a (set_mutex false o) st) as Hh.
      unfold with_object in Hh. rewrite Hh in Ho'.
      injection Ho' as <-. apply mutex_of_set_mutex.
    + unfold panic. intros o'. rewrite H. now intros [= <-].
  - intros o'. rewrite H. discriminate.
Qed.

Lemma defer_Unlock_Panic_post {A} a (body : M S A) (st st1 : World S) msg :
  defer (mutex_Unlock a) body st = Panic msg st1 ->
  forall o, heap st1 !! a = Some o -> mutex_of o = false.
Proof.
  unfold defer. pose proof (mutex_Unlock_post a) as Hu.
  destruct (body st) as [r s|m s| |]; try discriminate.
  - unfold bind, ret. specialize (Hu s).
    destruct (mutex_Unlock a s) as [u s'|m' s'| |]; try discriminate.
    now intros [= _ <-].
  - unfold bind, panic. specialize (Hu s).
    destruct (mutex_Unlock a s) as [u s'|m' s'| |]; try discriminate;
      now intros [= _ <-].
Qed.

Lemma mutex_Lock_Panic_inv a (st st1 : World S) msg :
  mutex_Lock a st = Panic msg st1 -> heap st1 !! a = None.
Proof.
  unfold mutex_Lock, bind, load.
  destruct (heap st !! a) as [o|] eqn:H.
  - destruct (mutex_of o); discriminate.
  - now intros [= _ <-].
Qed.

Lemma mutex_Lock_held a o (st : World S) :
  heap st !! a = Some o -> mutex_of o = true -> mutex_Lock a st = Blocked.
Proof.
  intros H Hm. unfold mutex_Lock, bind. now rewrite (load_Some _ _ _ H), Hm.
Qed.

End mutexes.

(** X7: with its mutex free, the exclusive-access wrapper returns what the
    wrapped sink returns, count and error as they are, for [Write] and
    for [Sync], and its mutex is free again afterwards. *)
Theorem lockedWriteSyncer_delegates :
  forall (S : Type) (F : Foreign S) (fuel : nat) (a : addr)
         (ws : WriteSyncer) (st : World S),
    heap st !! a = Some (lockedObj false) ->
    (forall bs r st1,
       Write fuel ws bs (with_object a (lockedObj true) st) = Ret r st1 ->
       heap st1 !! a = Some (lockedObj true) ->
       Write fuel (lockedWriteSyncer a ws) bs st =
       Ret r (with_object a (lockedObj false) st1)) /\
    (forall e st1,
       Sync fuel ws (with_object a (lockedObj true) st) = Ret e st1 ->
       heap st1 !! a = Some (lockedObj true) ->
       Sync fuel (lockedWriteSyncer a ws) st =
       Ret e (with_object a (lockedObj false) st1)).
Proof.
  intros * H. split.
  - intros bs [k e] st1 Hw H1. cbn [Write].
    unfold lockedWriteSyncer_Write, bind at 1.
    rewrite (mutex_Lock_free _ _ _ H eq_refl). cbn [set_mutex].
    unfold bind at 1. rewrite Hw. unfold bind at 1.
    now rewrite (mutex_Unlock_held _ _ _ H1 eq_refl).
  - intros e st1 Hs H1. cbn [Sync].
    unfold lockedWriteSyncer_Sync, bind at 1.
    rewrite (mutex_Lock_free _ _ _ H eq_refl). cbn [set_mutex].
    unfold bind at 1. rewrite Hs. unfold bind at 1.
    now rewrite (mutex_Unlock_held _ _ _ H1 eq_refl).
Qed.

(** X8: the exclusive-access wrapper does not defer its unlock.  When the
    wrapped sink panics in [Write] the panic passes through with the
    mutex still held, and every later [Write] or [Sync] on the wrapper
    waits for it without reaching the sink. *)
Theorem lockedWriteSyncer_panic_keeps_mutex :
  forall (S : Type) (F : Foreign S) (fuel fuel' : nat) (a : addr)
         (ws : WriteSyncer) (bs bs' : bytes) (st st1 : World S)
         (msg : string),
    heap st !! a = Some (lockedObj false) ->
    Write fuel ws bs (with_object a (lockedObj true) st) = Panic msg st1 ->
    heap st1 !! a = Some (lockedObj true) ->
    Write fuel (lockedWriteSyncer a ws) bs st = Panic msg st1 /\
    Write fuel' (lockedWriteSyncer a ws) bs' st1 = Blocked /\
    Sync fuel' (lockedWriteSyncer a ws) st1 = Blocked.
Proof.
  intros * H Hw H1. split; [|split].
  - cbn [Write]. unfold lockedWriteSyncer_Write, bind at 1.
    rewrite (mutex_Lock_free _ _ _ H eq_refl). cbn [set_mutex].
    unfold bind at 1. now rewrite Hw.
  - cbn [Write]. unfold lockedWriteSyncer_Write, bind at 1.
    now rewrite (mutex_Lock_held _ _ _ H1 eq_refl).
  - cbn [Sync]. unfold lockedWriteSyncer_Sync, bind at 1.
    now rewrite (mutex_Lock_held _ _ _ H1 eq_refl).
Qed.

(** X9: the buffering wrapper defers its unlock.  When [Write] or [Sync]
    panics, the wrapper's mutex is not left held. *)
Theorem bufferWriterSyncer_panic_releases_mutex :
  forall (S : Type) (F : Foreign S) (fuel : nat) (a : addr)
         (wr : WriteSyncer) (bs : bytes) (st st1 : World S)
         (msg : string) (o : object),
    Write fuel (bufferWriterSyncer a wr) bs st = Panic msg st1 \/
    Sync fuel (bufferWriterSyncer a wr) st = Panic msg st1 ->
    heap st1 !! a = Some o ->
    mutex_of o = false.
Proof.
  intros * H Ho.
  assert (Hgen : forall A (body : M S A),
            bind (mutex_Lock a) (fun _ => defer (mutex_Unlock a) body) st
              = Panic msg st1 -> mutex_of o = false).
  { intros A body Hp. unfold bind in Hp.
    destruct (mutex_Lock a st) as [u s|m s| |] eqn:Hl; try discriminate.
    - apply (defer_Unlock_Panic_post a body s st1 msg Hp o Ho).
    - injection Hp as _ <-. apply mutex_Lock_Panic_inv in Hl.
      rewrite Hl in Ho. discriminate. }
  destruct H as [H|H].
  - cbn [Write] in H. apply (Hgen _ _ H).
  - cbn [Sync] in H. apply (Hgen _ _ H).
Qed.

(** ** More on the fan-out wrapper *)

Lemma then_smaller_min (c : Z) (ns : list Z) :
  In (then_smaller c ns) (c :: ns) /\
  Forall (fun k => then_smaller c ns <= k) (c :: ns).
Proof.
  revert c; induction ns as [|n ns IH]; intros c; cbn [then_smaller].
  - split; [now left|]. constructor; [lia|constructor].
  - destruct (IH (if n <? c then n else c)) as [Hin Hall].
    apply Forall_cons in Hall as [Hle Hall].
    destruct (n <? c) eqn:E.
    + apply Z.ltb_lt in E. split.
      * destruct Hin as [<-|Hin]; [right; now left | right; now right].
      * constructor; [lia|]. constructor; [lia|assumption].
    + apply Z.ltb_ge in E. split.
      * destruct Hin as [<-|Hin]; [now left | right; now right].
      * constructor; [lia|]. constructor; [lia|assumption].
Qed.

(** With no count of 0 the count reported is the smallest one. *)
Lemma reported_count_min (ns : list Z) :
  ns <> [] ->
  Forall (fun n => n <> 0) ns ->
  In (reported_count ns) ns /\
  Forall (fun k => reported_count ns <= k) ns.
Proof.
  intros Hne Hnz. rewrite (reported_count_no_zero ns Hnz).
  destruct ns as [|n ns]; [contradiction|].
  cbn [first_nonzero_then_smaller].
  apply Forall_cons in Hnz as [Hn _].
  destruct (n =? 0) eqn:E; [apply Z.eqb_eq in E; contradiction|].
  apply then_smaller_min.
Qed.

(** X10: when no sink reports a count of 0, the count of the fan-out
    write is the smallest count that a sink reported. *)
Theorem multiWriteSyncer_Write_smallest_count :
  forall (S : Type) (F : Foreign S) (fuel : nat) (ws : list WriteSyncer)
         (p : bytes) (st st' : World S) (rs : list (Z * error)),
    each (fun w => Write fuel w p) ws st = Ret rs st' ->
    rs <> [] ->
    Forall (fun r => fst r <> 0) rs ->
    exists n e,
      Write fuel (NewMultiWriteSyncer ws) p st = Ret (n, e) st' /\
      In n (map fst rs) /\
      Forall (fun k => n <= k) (map fst rs).
Proof.
  intros * He Hne Hnz.
  rewrite NewMultiWriteSyncer_Write, He. cbn [omap].
  eexists _, _. split; [reflexivity|].
  apply reported_count_min.
  - destruct rs; [contradiction|discriminate].
  - now apply Forall_map.
Qed.

(** X11: the error of the fan-out write is [nil] exactly when every sink
    returned [nil]; and when every sink of a non-empty sequence accepts
    the bytes in full without error, the fan-out write returns
    [(len(p), nil)]. *)
Theorem multiWriteSyncer_Write_success :
  forall (S : Type) (F : Foreign S) (fuel : nat) (ws : list WriteSyncer)
         (p : bytes) (st : World S),
    omap (fun r => is_nil (snd r)) (Write fuel (NewMultiWriteSyncer ws) p st)
    = omap (forallb (fun r => is_nil (snd r)))
           (each (fun w => Write fuel w p) ws st) /\
    (forall rs st',
       each (fun w => Write fuel w p) ws st = Ret rs st' ->
       rs <> [] ->
       Forall (fun r => r = (len p, nil_error)) rs ->
       Write fuel (NewMultiWriteSyncer ws) p st
       = Ret (len p, nil_error) st').
Proof.
  intros. split.
  - rewrite NewMultiWriteSyncer_Write, omap_omap. apply omap_ext.
    intros rs. cbn [snd]. rewrite is_nil_fold_Append.
    induction rs as [|r rs IH]; [reflexivity|].
    cbn [map forallb]. now rewrite IH.
  - intros rs st' He Hne Hall.
    rewrite NewMultiWriteSyncer_Write, He. cbn [omap].
    assert (Hc : forall c, (c = 0 \/ c = len p) ->
              fold_left next_nWritten (map fst rs) c
              = if decide (rs = []) then c else len p).
    { clear Hne He. induction Hall as [|r rs -> _ IH]; intros c Hc.
      - reflexivity.
      - cbn [map fst fold_left]. rewrite IH.
        + destruct (decide (rs = [])) as [_|_];
            destruct (decide ((len p, nil_error) :: rs = []));
            try discriminate; [|reflexivity].
          destruct Hc as [-> | ->]; [apply next_nWritten_zero|].
          unfold next_nWritten. rewrite Z.ltb_irrefl.
          now destruct ((len p =? 0) && negb (len p =? 0)).
        + destruct Hc as [-> | ->].
          * rewrite next_nWritten_zero. now right.
          * right. unfold next_nWritten. rewrite Z.ltb_irrefl.
            now destruct ((len p =? 0) && negb (len p =? 0)). }
    assert (He' : fold_left multierr.Append (map snd rs) nil_error
                  = nil_error).
    { apply fold_Append_nil_iff. split; [reflexivity|].
      apply Forall_map. eapply Forall_impl; [exact Hall|].
      now intros r ->. }
    rewrite <- fold_next_nWritten_reported, (Hc 0 (or_introl eq_refl)), He'.
    destruct (decide (rs = [])); [contradiction|reflexivity].
Qed.

Section nesting.

Context {S : Type} {F : Foreign S}.

Lemma each_app {T A} (f : T -> M S A) (l1 l2 : list T) (st : World S) :
  each f (l1 ++ l2) st =
  and_then (each f l1 st)
           (fun r1 st1 => omap (fun r2 => r1 ++ r2) (each f l2 st1)).
Proof.
  revert st; induction l1 as [|x l1 IH]; intros st; cbn [app each].
  - unfold ret; cbn [and_then]. now destruct (each f l2 st).
  - unfold bind at 1 3. destruct (f x st) as [r st1| | |]; try reflexivity.
    unfold bind at 1 2. rewrite IH.
    destruct (each f l1 st1) as [r1 st2| | |]; try reflexivity.
    unfold ret. cbn [and_then].
    destruct (each f l2 st2); reflexivity.
Qed.

Lemma each_nested (fuel : nat) (ls : list (list WriteSyncer)) (p : bytes)
    (st : World S) :
  omap all_Errors
       (each (fun w => Write fuel w p) (map NewMultiWriteSyncer ls) st) =
  omap all_Errors (each (fun w => Write fuel w p) (concat ls) st).
Proof.
  revert st; induction ls as [|l ls IH]; intros st; [reflexivity|].
  cbn [map concat each]. rewrite each_app.
  unfold bind at 1. rewrite NewMultiWriteSyncer_Write.
  destruct (each (fun w => Write fuel w p) l st) as [rl st1| | |];
    try reflexivity.
  cbn [omap and_then]. unfold bind at 1.
  specialize (IH st1). rewrite omap_omap.
  destruct (each (fun w => Write fuel w p) (map NewMultiWriteSyncer ls) st1)
    as [r1 s1|m1 s1| |];
    destruct (each (fun w => Write fuel w p) (concat ls) st1)
    as [r2 s2|m2 s2| |]; cbn [omap] in IH |- *;
    try discriminate; try reflexivity.
  - injection IH as IH <-. unfold ret. cbn [omap]. f_equal.
    unfold all_Errors in *. cbn [map concat snd].
    rewrite map_app, concat_app, Errors_fold_Append, IH, map_map.
    reflexivity.
  - injection IH as <- <-. reflexivity.
Qed.

End nesting.

(** X12: a fan-out of fan-outs writes to the same sinks in the same order
    as the fan-out of all of them, ends in the same way, and returns an
    error with the same underlying errors. *)
Theorem NewMultiWriteSyncer_nested :
  forall (S : Type) (F : Foreign S) (fuel : nat)
         (ls : list (list WriteSyncer)) (p : bytes) (st : World S),
    omap (fun r => multierr.Errors (snd r))
         (Write fuel (NewMultiWriteSyncer (map NewMultiWriteSyncer ls)) p st)
    = omap (fun r => multierr.Errors (snd r))
           (Write fuel (NewMultiWriteSyncer (concat ls)) p st).
Proof.
  intros. rewrite !NewMultiWriteSyncer_Write, !omap_omap. cbn [snd].
  rewrite (omap_ext _ all_Errors
             (each (fun w => Write fuel w p) (map NewMultiWriteSyncer ls) st)),
          (omap_ext _ all_Errors
             (each (fun w => Write fuel w p) (concat ls) st)).
  - apply each_nested.
  - intros rs. unfold all_Errors.
    now rewrite Errors_fold_Append, map_map.
  - intros rs. unfold all_Errors.
    now rewrite Errors_fold_Append, map_map.
Qed.

(** ** The life cycle of the buffering wrapper *)

(** X13: the closer works once.  After [close] has returned, a second
    [close] panics on the closed channel before any flush: nothing more
    reaches the sink. *)
Theorem bufferWriterSyncer_close_twice_panics :
  forall (S : Type) (F : Foreign S) (fuel fuel' : nat) (a : addr)
         (wr : WriteSyncer) (tk : Ticker) (bw : bufioWriter)
         (st st1 : World S) (e : error),
    heap st !! a = Some (bufferObj false false tk bw) ->
    leaves_object (Write fuel wr) a ->
    bufferWriterSyncer_close a (Write fuel wr) st = Ret e st1 ->
    exists st2,
      bufferWriterSyncer_close a (Write fuel' wr) st1
      = Panic "close of closed channel" st2 /\
      outside st2 = outside st1.
Proof.
  intros * H Hw Hc.
  rewrite (bufferWriterSyncer_close_Sync fuel a wr tk bw st H) in Hc.
  destruct (bufferWriterSyncer_Sync_post fuel a wr _ st1 e Hw Hc)
    as (sc & tk' & bw' & bw1 & H0 & H1 & _).
  rewrite heap_with_object in H0. injection H0 as <- <- <-.
  eexists. split.
  - apply (bufferWriterSyncer_close_twice a _ false _ bw1 st1 H1).
  - reflexivity.
Qed.

(** X14: an error that [Sync] returned, as on a tick of [flushLoop] where
    it is dropped, is returned by [close], without another write to the
    sink. *)
Theorem bufferWriterSyncer_close_returns_earlier_error :
  forall (S : Type) (F : Foreign S) (fuel fuel' : nat) (a : addr)
         (wr : WriteSyncer) (tk : Ticker) (bw : bufioWriter)
         (st st1 : World S) (e : error),
    heap st !! a = Some (bufferObj false false tk bw) ->
    leaves_object (Write fuel wr) a ->
    Sync fuel (bufferWriterSyncer a wr) st = Ret e st1 ->
    e <> nil_error ->
    exists st2,
      bufferWriterSyncer_close a (Write fuel' wr) st1 = Ret e st2 /\
      outside st2 = outside st1.
Proof.
  intros * H Hw Hs Hne.
  destruct (bufferWriterSyncer_Sync_post fuel a wr st st1 e Hw Hs)
    as (sc & tk' & bw' & bw1 & H0 & H1 & He & _).
  rewrite H in H0. injection H0 as <- <- <-.
  rewrite (bufferWriterSyncer_close_Sync fuel' a wr tk bw1 st1 H1).
  eexists. split.
  - rewrite <- He.
    apply (bufferWriterSyncer_Sync_sticky fuel' a wr true
             (mkTicker (period tk) true) bw1 _ (heap_with_object _ _ _)).
    now rewrite He.
  - reflexivity.
Qed.

(** X15: [flushLoop] drops the result of [Sync] and waits on.  Take a
    wrapper on which [Sync] returns, with whatever error.  Ticks alone
    never make the loop return: after any number of them it is waiting in
    [select].  While [stop] is open a wake-up by [stop] is not taken
    either.  With [stop] closed the loop returns at the wake-up by
    [stop], and when ticks came first the wrapper is as the first flush
    left it. *)
Theorem flushLoop_until_stop :
  forall (S : Type) (F : Foreign S) (fuel : nat) (a : addr)
         (wr : WriteSyncer) (sc : bool) (tk : Ticker) (bw : bufioWriter)
         (st st1 : World S) (e : error) (k : nat) (rest : list wakeup),
    heap st !! a = Some (bufferObj false sc tk bw) ->
    leaves_object (Write fuel wr) a ->
    Sync fuel (bufferWriterSyncer a wr) st = Ret e st1 ->
    flushLoop a (Write fuel wr) (replicate k tick) st = Blocked /\
    (sc = false ->
     flushLoop a (Write fuel wr) (replicate k tick ++ stop_closed :: rest) st
     = Blocked) /\
    (sc = true ->
     flushLoop a (Write fuel wr) (stop_closed :: rest) st = Ret tt st /\
     flushLoop a (Write fuel wr)
               (replicate (Datatypes.S k) tick ++ stop_closed :: rest) st
     = Ret tt st1).
Proof.
  intros * H Hw Hs.
  destruct (bufferWriterSyncer_Sync_post fuel a wr st st1 e Hw Hs)
    as (sc' & tk' & bw' & bw1 & H0 & H1 & He & Hn).
  rewrite H in H0. injection H0 as <- <- <-.
  assert (Hagain : Sync fuel (bufferWriterSyncer a wr) st1 = Ret e st1).
  { destruct (is_nil e) eqn:E.
    - apply is_nil_true in E. rewrite E in He, Hn |- *.
      apply (bufferWriterSyncer_Sync_empty _ _ _ _ _ _ _ H1 He
               (Hn eq_refl)).
    - rewrite <- He.
      apply (bufferWriterSyncer_Sync_sticky _ _ _ _ _ _ _ H1).
      intros E'. rewrite <- He, E' in E. discriminate. }
  cbn [Sync] in Hs, Hagain.
  (* after the first flush every tick leaves the wrapper as it is *)
  assert (Hticks : forall (tl : list wakeup) j,
            flushLoop a (Write fuel wr) (replicate j tick ++ tl) st1
            = flushLoop a (Write fuel wr) tl st1).
  { intros tl. induction j as [|j IH]; [reflexivity|].
    cbn [replicate app flushLoop]. unfold bind. now rewrite Hagain. }
  assert (Hfirst : forall (tl : list wakeup) j,
            flushLoop a (Write fuel wr)
                      (replicate (Datatypes.S j) tick ++ tl) st
            = flushLoop a (Write fuel wr) tl st1).
  { intros tl j. cbn [replicate app flushLoop]. unfold bind.
    rewrite Hs. apply Hticks. }
  split; [|split].
  - destruct k as [|k]; [reflexivity|].
    rewrite <- (app_nil_r (replicate (Datatypes.S k) tick)).
    now rewrite Hfirst.
  - intros ->. destruct k as [|k].
    + cbn [replicate app flushLoop]. unfold recv_stop, bind.
      now rewrite (load_Some _ _ _ H).
    + rewrite Hfirst. cbn [flushLoop]. unfold recv_stop, bind.
      now rewrite (load_Some _ _ _ H1).
  - intros ->. split.
    + cbn [flushLoop]. unfold recv_stop, bind.
      now rewrite (load_Some _ _ _ H).
    + rewrite Hfirst. cbn [flushLoop]. unfold recv_stop, bind.
      now rewrite (load_Some _ _ _ H1).
Qed.

(** ** Instances *)

Lemma bufferWriterSyncer_Sync_twice_witness :
  Sync (F := rejecting) 0 (bufferWriterSyncer 0%nat (foreignSyncer 0))
       st_rejected
  = Ret (errorString "disk full") st_rejected.
Proof.
  apply (bufferWriterSyncer_Sync_twice _ rejecting 1 0 0%nat
           (foreignSyncer 0) st_12345 st_rejected).
  - apply foreignSyncer_leaves_object.
  - vm_compute. reflexivity.
Defined.

Lemma bufferWriterSyncer_error_is_permanent_witness :
  Write (F := rejecting) 0 (bufferWriterSyncer 0%nat (foreignSyncer 0))
        (bytes_of "more") st_rejected
  = Ret (0, errorString "disk full") st_rejected.
Proof.
  apply (bufferWriterSyncer_error_is_permanent _ rejecting 1 0 0%nat
           (foreignSyncer 0) (bytes_of "more") st_12345 st_rejected).
  - apply foreignSyncer_leaves_object.
  - vm_compute. reflexivity.
  - discriminate.
Defined.

Lemma bufferWriterSyncer_Write_framing_witness :
  exists bw',
    Write (F := accepting) 1 (bufferWriterSyncer 0%nat (foreignSyncer 0))
          (bytes_of "1234567890ABC") st_12345
    = Ret (13, nil_error)
          (mkWorld [call_Write 0 (bytes_of "12345");
                    call_Write 0 (bytes_of "1234567890ABC")]
                   (<[0%nat := bufferObj false false ticker30s bw']>
                      (heap st_12345))) /\
    buffered bw' = [].
Proof.
  apply (bufferWriterSyncer_Write_framing (fun _ => nil_error) 0 0%nat 0%nat
           (bytes_of "1234567890ABC") false ticker30s holds_12345 []
           (heap st_12345)).
  - reflexivity.
  - reflexivity.
  - vm_compute. split; [reflexivity | discriminate].
  - reflexivity.
Defined.

Lemma bufferWriterSyncer_Sync_never_syncs_sink_witness :
  exists e bw1,
    Sync (F := rejecting) 1 (bufferWriterSyncer 0%nat (foreignSyncer 0))
         st_12345
    = Ret e (mkWorld [call_Write 0 (bytes_of "12345")]
                     (<[0%nat := bufferObj false false ticker30s bw1]>
                        (heap st_12345))).
Proof.
  destruct (bufferWriterSyncer_Sync_never_syncs_sink
              (fun _ _ => (0, errorString "disk full")) (fun _ => nil_error)
              1 0%nat 0%nat ticker30s holds_12345 [] (heap st_12345))
    as [H _].
  - reflexivity.
  - vm_compute. split; discriminate.
  - exact H.
Defined.

Lemma bufferWriterSyncer_Write_batches_witness :
  (exists bw',
     each (Write (F := accepting) 0
                 (bufferWriterSyncer 0%nat (foreignSyncer 0)))
          [bytes_of "67"; bytes_of "890"] st_12345
     = Ret [(2, nil_error); (3, nil_error)]
           (with_object 0%nat (bufferObj false false ticker30s bw') st_12345)
     /\ buffered bw' = bytes_of "1234567890") /\
  each (Write (F := rejecting) 0
              (bufferWriterSyncer 0%nat (foreignSyncer 0)))
       [bytes_of "67"; bytes_of "890"] st_rejected
  = Ret [(0, errorString "disk full"); (0, errorString "disk full")]
        st_rejected.
Proof.
  split.
  - destruct (bufferWriterSyncer_Write_batches _ accepting 0 0%nat
                (foreignSyncer 0) [bytes_of "67"; bytes_of "890"] false
                ticker30s holds_12345 st_12345 eq_refl) as [H _].
    apply H.
    + reflexivity.
    + vm_compute. split; discriminate.
    + vm_compute. discriminate.
  - destruct (bufferWriterSyncer_Write_batches _ rejecting 0 0%nat
                (foreignSyncer 0) [bytes_of "67"; bytes_of "890"] false
                ticker30s
                (mkBufio (buf holds_12345) 5 (errorString "disk full"))
                st_rejected eq_refl) as [_ H].
    apply H. discriminate.
Defined.

Lemma bufferWriterSyncer_Write_then_Sync_witness :
  (exists st1 e bw2,
     each (Write (F := accepting) 1
                 (bufferWriterSyncer 0%nat (foreignSyncer 0)))
          [bytes_of "67"; bytes_of "890"] st_12345
     = Ret [(2, nil_error); (3, nil_error)] st1 /\
     Sync (F := accepting) 1 (bufferWriterSyncer 0%nat (foreignSyncer 0)) st1
     = Ret e (mkWorld [call_Write 0 (bytes_of "1234567890")]
                      (<[0%nat := bufferObj false false ticker30s bw2]>
                         (heap st_12345)))) /\
  (each (Write (F := rejecting) 1
               (bufferWriterSyncer 0%nat (foreignSyncer 0)))
        [bytes_of "67"; bytes_of "890"] st_rejected
   = Ret [(0, errorString "disk full"); (0, errorString "disk full")]
         st_rejected /\
   Sync (F := rejecting) 1 (bufferWriterSyncer 0%nat (foreignSyncer 0))
        st_rejected
   = Ret (errorString "disk full") st_rejected).
Proof.
  split.
  - destruct (bufferWriterSyncer_Write_then_Sync
                (fun _ p => (len p, nil_error)) (fun _ => nil_error) 1 0%nat
                0%nat [bytes_of "67"; bytes_of "890"] false ticker30s
                holds_12345 [] (heap st_12345) eq_refl) as [H _].
    apply H.
    + reflexivity.
    + vm_compute. split; discriminate.
    + vm_compute. discriminate.
  - destruct (bufferWriterSyncer_Write_then_Sync
                (fun _ _ => (0, errorString "disk full"))
                (fun _ => nil_error) 1 0%nat
                0%nat [bytes_of "67"; bytes_of "890"] false ticker30s
                (mkBufio (buf holds_12345) 5 (errorString "disk full"))
                [call_Write 0 (bytes_of "12345")] (heap st_rejected)
                eq_refl) as [_ H].
    apply H. discriminate.
Defined.

Lemma lockedWriteSyncer_delegates_witness :
  exists st1,
    Write (F := sinkA_sinkB) 0 (lockedWriteSyncer 1%nat (foreignSyncer 1))
          (bytes_of "test") st_locked
    = Ret (4, errorString "errX") st1 /\
    outside st1 = [call_Write 1 (bytes_of "test")] /\
    heap st1 !! 1%nat = Some (lockedObj false).
Proof.
  destruct (lockedWriteSyncer_delegates _ sinkA_sinkB 0 1%nat
              (foreignSyncer 1) st_locked eq_refl) as [H _].
  eexists. split.
  - apply H; [vm_compute; reflexivity | reflexivity].
  - split; reflexivity.
Defined.

Lemma lockedWriteSyncer_panic_keeps_mutex_witness :
  exists st1,
    Write (F := miscounting) 1
          (lockedWriteSyncer 1%nat (bufferWriterSyncer 0%nat (foreignSyncer 0)))
          (bytes_of "1234567890ABC") st_locked
    = Panic "slice bounds out of range" st1 /\
    Write (F := miscounting) 1
          (lockedWriteSyncer 1%nat (bufferWriterSyncer 0%nat (foreignSyncer 0)))
          (bytes_of "next") st1
    = Blocked /\
    Sync (F := miscounting) 1
         (lockedWriteSyncer 1%nat (bufferWriterSyncer 0%nat (foreignSyncer 0)))
         st1
    = Blocked.
Proof.
  eexists.
  apply (lockedWriteSyncer_panic_keeps_mutex _ miscounting 1 1 1%nat
           (bufferWriterSyncer 0%nat (foreignSyncer 0))
           (bytes_of "1234567890ABC") (bytes_of "next") st_locked).
  - reflexivity.
  - vm_compute. reflexivity.
  - reflexivity.
Defined.

Lemma bufferWriterSyncer_panic_releases_mutex_witness :
  exists st1,
    Write (F := miscounting) 1 (bufferWriterSyncer 0%nat (foreignSyncer 0))
          (bytes_of "1234567890ABC") st_locked
    = Panic "slice bounds out of range" st1 /\
    forall o, heap st1 !! 0%nat = Some o -> mutex_of o = false.
Proof.
  eexists. split.
  - vm_compute. reflexivity.
  - intros o Ho.
    eapply (bufferWriterSyncer_panic_releases_mutex _ miscounting 1 0%nat
              (foreignSyncer 0) (bytes_of "1234567890ABC") st_locked).
    2: exact Ho.
    left. vm_compute. reflexivity.
Defined.

Lemma multiWriteSyncer_Write_smallest_count_witness :
  exists n e st',
    Write (F := sinkA_sinkB) 0
          (NewMultiWriteSyncer [foreignSyncer 0; foreignSyncer 1]%nat)
          (bytes_of "test") st0
    = Ret (n, e) st' /\
    In n [4; 4] /\ Forall (fun k => n <= k) [4; 4].
Proof.
  destruct (multiWriteSyncer_Write_smallest_count _ sinkA_sinkB 0
              [foreignSyncer 0; foreignSyncer 1]%nat (bytes_of "test") st0
              (mkWorld [call_Write 0 (bytes_of "test");
                        call_Write 1 (bytes_of "test")] ∅)
              [(4, nil_error); (4, errorString "errX")])
    as (n & e & H).
  - vm_compute. reflexivity.
  - discriminate.
  - repeat constructor; discriminate.
  - eexists n, e, _. exact H.
Defined.

Lemma multiWriteSyncer_Write_success_witness :
  Write (F := accepting) 0
        (NewMultiWriteSyncer [foreignSyncer 0; foreignSyncer 1]%nat)
        (bytes_of "test") st0
  = Ret (4, nil_error)
        (mkWorld [call_Write 0 (bytes_of "test");
                  call_Write 1 (bytes_of "test")] ∅).
Proof.
  destruct (multiWriteSyncer_Write_success _ accepting 0
              [foreignSyncer 0; foreignSyncer 1]%nat (bytes_of "test") st0)
    as [_ H].
  apply (H [(4, nil_error); (4, nil_error)]).
  - vm_compute. reflexivity.
  - discriminate.
  - repeat constructor.
Defined.

Lemma bufferWriterSyncer_close_twice_panics_witness :
  exists st1,
    bufferWriterSyncer_close 0%nat
      (Write (F := accepting) 1 (foreignSyncer 0)) st_12345
    = Ret nil_error st1 /\
    exists st2,
      bufferWriterSyncer_close 0%nat
        (Write (F := accepting) 1 (foreignSyncer 0)) st1
      = Panic "close of closed channel" st2 /\
      outside st2 = outside st1.
Proof.
  eexists. split.
  - vm_compute. reflexivity.
  - apply (bufferWriterSyncer_close_twice_panics _ accepting 1 1 0%nat
             (foreignSyncer 0) ticker30s holds_12345 st_12345 _ nil_error).
    + reflexivity.
    + apply foreignSyncer_leaves_object.
    + vm_compute. reflexivity.
Defined.

Lemma bufferWriterSyncer_close_returns_earlier_error_witness :
  exists st2,
    bufferWriterSyncer_close 0%nat
      (Write (F := rejecting) 0 (foreignSyncer 0)) st_rejected
    = Ret (errorString "disk full") st2 /\
    outside st2 = outside st_rejected.
Proof.
  apply (bufferWriterSyncer_close_returns_earlier_error _ rejecting 1 0
           0%nat (foreignSyncer 0) ticker30s holds_12345 st_12345
           st_rejected).
  - reflexivity.
  - apply foreignSyncer_leaves_object.
  - vm_compute. reflexivity.
  - discriminate.
Defined.

Lemma flushLoop_until_stop_witness :
  (flushLoop 0%nat (Write (F := rejecting) 1 (foreignSyncer 0))
             [tick; tick] st_12345
   = Blocked /\
   flushLoop 0%nat (Write (F := rejecting) 1 (foreignSyncer 0))
             [tick; tick; stop_closed] st_12345
   = Blocked) /\
  (exists stA stB stC,
     bufferWriterSyncer_close 0%nat
       (Write (F := accepting) 1 (foreignSyncer 0)) st_12345
     = Ret nil_error stA /\
     Write (F := accepting) 1 (bufferWriterSyncer 0%nat (foreignSyncer 0))
           (bytes_of "67") stA
     = Ret (2, nil_error) stB /\
     flushLoop 0%nat (Write (F := accepting) 1 (foreignSyncer 0))
               [tick; stop_closed] stB
     = Ret tt stC /\
     outside stC = [call_Write 0 (bytes_of "12345");
                    call_Write 0 (bytes_of "67")]).
Proof.
  split.
  - destruct (flushLoop_until_stop _ rejecting 1 0%nat (foreignSyncer 0)
                false ticker30s holds_12345 st_12345 st_rejected
                (errorString "disk full") 2 [] eq_refl
                (foreignSyncer_leaves_object _ _ _)
                ltac:(vm_compute; reflexivity))
      as (H1 & H2 & _).
    split; [exact H1 | exact (H2 eq_refl)].
  - eexists _, _, _.
    split; [vm_compute; reflexivity|].
    split; [vm_compute; reflexivity|].
    split.
    + refine (proj2 (proj2 (proj2
                (flushLoop_until_stop _ accepting 1 0%nat (foreignSyncer 0)
                   true _ _ _ _ nil_error 0 [] _
                   (foreignSyncer_leaves_object _ _ _) _)) eq_refl)).
      * vm_compute. reflexivity.
      * vm_compute. reflexivity.
    + reflexivity.
Defined.
